(** * The openstack query engine: handlers, builder and result parser

    A shallow embedding of
      - [lib/enums/query/props/server_properties.py]
      - [lib/openstack_query/handlers/client_side_handler.py]
      - [lib/openstack_query/query_builder.py]
      - [lib/openstack_query/query_parser.py]
    Python exceptions are values of [exn] carried by [result]; objects that
    the code mutates ([self], the list handed to [run_parser]) are passed
    explicitly and returned. *)

From Stdlib Require Import List String Ascii ZArith Bool Lia.
From Stdlib Require Import Permutation Sorted DecimalString DecimalZ.
Import ListNotations.
#[local] Set Warnings "-register-all".
Local Open Scope string_scope.
Local Open Scope Z_scope.

(** ** Python runtime: exceptions, dictionaries, [list.sort] *)
Module Py.

(** The exception classes the modelled code raises or lets through. *)
Inductive exn : Type :=
| AttributeError
| KeyError (key : string)
| TypeError
| AssertionError
| ParseQueryError (msg : string)
| QueryPresetMappingError (msg : string)
| QueryPropertyMappingError (msg : string).

Inductive result (A : Type) : Type :=
| Ok (a : A)
| Raise (e : exn).
Arguments Ok {A} a.
Arguments Raise {A} e.

Definition bind {A B} (m : result A) (k : A -> result B) : result B :=
  match m with
  | Ok a => k a
  | Raise e => Raise e
  end.

Definition raises {A} (m : result A) : bool :=
  match m with Ok _ => false | Raise _ => true end.

(** [str(i)] for an [int]. *)
Definition str_int (z : Z) : string := NilEmpty.string_of_int (Z.to_int z).

(** [pat in s] for strings. *)
Fixpoint has_infix (pat s : string) : bool :=
  if String.prefix pat s then true
  else
    match s with
    | EmptyString => false
    | String _ s' => has_infix pat s'
    end.

(** A [dict] keeps its keys in insertion order; assigning to a key that is
    present replaces the value and keeps the key's place. *)
Section Dict.
Context {K V : Type} (eqb : K -> K -> bool).

Definition dict := list (K * V).

Fixpoint dict_get (d : dict) (k : K) : option V :=
    match d with
    | [] => None
    | (k', v) :: r => if eqb k' k then Some v else dict_get r k
    end.

Definition dict_mem (d : dict) (k : K) : bool :=
    match dict_get d k with Some _ => true | None => false end.

Fixpoint dict_set (d : dict) (k : K) (v : V) : dict :=
    match d with
    | [] => [(k, v)]
    | (k', v') :: r =>
        if eqb k' k then (k', v) :: r else (k', v') :: dict_set r k v
    end.

(** [d.update(other)] *)
Definition dict_update (d other : dict) : dict :=
    fold_left (fun acc kv => dict_set acc (fst kv) (snd kv)) other d.

Definition dict_keys (d : dict) : list K := map fst d.
End Dict.
Arguments dict K V : clear implicits.

(** [list.sort(key=..., reverse=...)] compares keys with [<] only and is
    stable.  It is modelled by the stable insertion sort; with
    [reverse=True] CPython reverses the list, sorts it, and reverses it
    again, which is what keeps equal keys in their original order. *)
Section Sort.
Context {A : Type} (key : A -> Z).

Fixpoint insert_by (x : A) (l : list A) : list A :=
    match l with
    | [] => [x]
    | y :: r => if key y <? key x then y :: insert_by x r else x :: y :: r
    end.

Fixpoint stable_sort (l : list A) : list A :=
    match l with
    | [] => []
    | x :: r => insert_by x (stable_sort r)
    end.

Definition list_sort (reverse : bool) (l : list A) : list A :=
    if reverse then rev (stable_sort (rev l)) else stable_sort l.

(** The order a pass with the given direction establishes. *)
Definition dir_lt (reverse : bool) (a b : A) : Prop :=
    if reverse then key b < key a else key a < key b.
Definition dir_le (reverse : bool) (a b : A) : Prop :=
    if reverse then key b <= key a else key a <= key b.
End Sort.

(** Python values as far as the modelled code looks into them.  A resource
    record is used as a mapping ([a["user_id"]]); [PyDict] is that mapping. *)
Inductive pyval : Type :=
| PyNone
| PyBool (b : bool)
| PyInt (z : Z)
| PyStr (s : string)
| PyList (l : list pyval)
| PyDict (d : list (string * pyval)).

(** [v[k]] for a string key [k]: a mapping without the key raises
    [KeyError]; a value that is no mapping raises [TypeError]. *)
Definition subscript (v : pyval) (k : string) : result pyval :=
  match v with
  | PyDict d =>
      match dict_get String.eqb d k with
      | Some x => Ok x
      | None => Raise (KeyError k)
      end
  | _ => Raise TypeError
  end.

(** The classes an annotation can name, and [isinstance]. *)
Inductive pytype : Type :=
| TNoneType | TBool | TInt | TStr | TList | TDict | TObject.

Definition isinstance (v : pyval) (t : pytype) : bool :=
  match t, v with
  | TObject, _ => true
  | TNoneType, PyNone => true
  | TBool, PyBool _ => true
  | TInt, PyInt _ => true
  | TInt, PyBool _ => true
  | TStr, PyStr _ => true
  | TList, PyList _ => true
  | TDict, PyDict _ => true
  | _, _ => false
  end.

(** A Python [Enum] class: members carry a [name] and are compared by
    identity. *)
Class Enum (T : Type) : Type := {
  name : T -> string;
  enum_eqb : T -> T -> bool;
  enum_eqb_eq : forall a b, enum_eqb a b = true <-> a = b
}.

(** The enumeration without members. *)
Lemma empty_eqb_eq (a b : Empty_set) : true = true <-> a = b.
Proof. destruct a. Qed.

#[global] Instance enum_empty : Enum Empty_set :=
  {| name := fun _ => ""; enum_eqb := fun _ _ => true;
     enum_eqb_eq := empty_eqb_eq |}.

(** A list object lives at a reference; the heap gives its contents. *)
Definition ref := nat.
Definition heap (A : Type) := ref -> list A.
Definition assign {A} (h : heap A) (r : ref) (l : list A) : heap A :=
  fun r' => if Nat.eqb r' r then l else h r'.

(** Text made of ASCII characters only.  The enumerations below are read
    from such text; what [str.upper()] does to other characters is outside
    this model, and the type keeps them out. *)
Definition is_ascii_char (c : ascii) : bool := (nat_of_ascii c <? 128)%nat.

Fixpoint is_ascii (s : string) : bool :=
  match s with
  | EmptyString => true
  | String c r => is_ascii_char c && is_ascii r
  end.

Record ascii_text : Type := mk_text {
  text : string;
  text_is_ascii : is_ascii text = true
}.

(** [str.upper()] on ASCII text: the letters [a] to [z] become [A] to
    [Z], every other character stays. *)
Definition is_lower (c : ascii) : bool :=
  (97 <=? nat_of_ascii c)%nat && (nat_of_ascii c <=? 122)%nat.
Definition upper_char (c : ascii) : ascii :=
  if is_lower c then ascii_of_nat (nat_of_ascii c - 32) else c.

Fixpoint upper_chars (s : string) : string :=
  match s with
  | EmptyString => EmptyString
  | String c r => String (upper_char c) (upper_chars r)
  end.

Definition upper (val : ascii_text) : string := upper_chars (text val).

(** [EnumClass[key]]: the member of that name, if any. *)
Definition by_name {T : Type} {EnumT : Enum T} (members : list T)
    (key : string) : option T :=
  find (fun m => String.eqb (name m) key) members.

End Py.

(** ** The property handler ([openstack_query/handlers/prop_handler.py]) *)
Module PropHandler.
Import Py.

(** Modelled from the spec: the property registry [PropHandler], whose
    source is not part of the files at hand.  [get_prop_func] is the
    accessor lookup (an accessor or not found), [check_supported] says
    whether a property has one, and [get_prop] is the value of a property
    of a record, an integer here. *)
Record t (Rec P : Type) : Type := mk {
  check_supported : P -> bool;
  get_prop_func : P -> option (Rec -> result pyval);
  get_prop : Rec -> P -> Z
}.
Arguments mk {Rec P}.
Arguments check_supported {Rec P}.
Arguments get_prop_func {Rec P}.
Arguments get_prop {Rec P}.

End PropHandler.

(** ** [QueryParser] ([openstack_query/query_parser.py]) *)
Module QueryParser.
Import Py.

Section Defs.
Context {P : Type} {EnumP : Enum P} {Rec : Type}.

(** The attributes of a [QueryParser] object. *)
Record t : Type := mk {
  _prop_handler : PropHandler.t Rec P;
  _sort_by : dict P bool;
  _group_by : option P;
  _group_mappings : dict string (Rec -> bool)
}.

(** What [run_parser] returns: the list object it was given, or a new
    dictionary of new lists. *)
Inductive output : Type :=
| OutList (obj_list : ref)
| OutGroups (groups : dict string (list Rec)).

Definition __init__ (prop_handler : PropHandler.t Rec P) : t :=
  mk prop_handler [] None [].

Definition set_sort_by (self : t) (d : dict P bool) : t :=
  mk (_prop_handler self) d (_group_by self) (_group_mappings self).
Definition set_group_by (self : t) (g : option P) : t :=
  mk (_prop_handler self) (_sort_by self) g (_group_mappings self).
Definition set_group_mappings (self : t) (m : dict string (Rec -> bool)) : t :=
  mk (_prop_handler self) (_sort_by self) (_group_by self) m.

Definition _check_prop_valid (self : t) (prop : P) : result unit :=
  if PropHandler.check_supported (_prop_handler self) prop then Ok tt
  else Raise (QueryPropertyMappingError
    "Error: failed to get property mapping, property is not supported by prop_handler").

(** The loop of [parse_sort_by]; an unsupported property raises and leaves
    the entries recorded so far. *)
Fixpoint parse_sort_by_loop (self : t) (sort_by : list (P * bool))
  : t * result unit :=
  match sort_by with
  | [] => (self, Ok tt)
  | (prop_name, order) :: rest =>
      match _check_prop_valid self prop_name with
      | Raise e => (self, Raise e)
      | Ok _ =>
          parse_sort_by_loop
            (set_sort_by self (dict_set enum_eqb (_sort_by self) prop_name order))
            rest
      end
  end.

Definition parse_sort_by (self : t) (sort_by : list (P * bool))
  : t * result unit :=
  parse_sort_by_loop (set_sort_by self []) sort_by.

(** [lambda obj, lst=group_vals: get_prop(obj, group_by) in lst] *)
Definition in_range (self : t) (group_by : P) (lst : list Z) : Rec -> bool :=
  fun obj =>
    existsb (Z.eqb (PropHandler.get_prop (_prop_handler self) obj group_by)) lst.

(** [lambda obj: get_prop(obj, group_by) not in all_prop_list] *)
Definition not_in_any (self : t) (group_by : P) (all_prop_list : list Z)
  : Rec -> bool :=
  fun obj =>
    negb (existsb (Z.eqb (PropHandler.get_prop (_prop_handler self) obj group_by))
            all_prop_list).

Definition ungrouped : string := "ungrouped results".

Definition parse_group_by (self : t) (group_by : P)
    (group_ranges : option (dict string (list Z))) (include_missing : bool)
  : t * result unit :=
  match _check_prop_valid self group_by with
  | Raise e => (self, Raise e)
  | Ok _ =>
      let self := set_group_by self (Some group_by) in
      match group_ranges with
      | None | Some [] => (self, Ok tt)
      | Some ranges =>
          let mappings :=
            fold_left
              (fun m nl => dict_set String.eqb m (fst nl)
                             (in_range self group_by (snd nl)))
              ranges (_group_mappings self) in
          let all_prop_list := List.concat (map snd ranges) in
          let mappings :=
            if include_missing
            then dict_set String.eqb mappings ungrouped
                   (not_in_any self group_by all_prop_list)
            else mappings in
          (set_group_mappings self mappings, Ok tt)
      end
  end.

(** [_run_sort]: one in-place [obj_list.sort] per entry of the dictionary,
    last entry first; the list object itself is returned. *)
Definition _run_sort (self : t) (h : heap Rec) (obj_list : ref)
    (sort_by_specs : dict P bool) : heap Rec * ref :=
  (fold_left
     (fun h kr =>
        assign h obj_list
          (list_sort (fun obj => PropHandler.get_prop (_prop_handler self) obj (fst kr))
             (snd kr) (h obj_list)))
     (rev sort_by_specs) h,
   obj_list).

(** The keys of [OrderedDict({get_prop(obj): None for obj in obj_list})]. *)
Definition unique_vals (self : t) (obj_list : list Rec) (group_by_prop : P)
  : list Z :=
  dict_keys
    (fold_left
       (fun d obj =>
          dict_set Z.eqb d (PropHandler.get_prop (_prop_handler self) obj group_by_prop) tt)
       obj_list []).

Definition group_name (group_by_prop : P) (val : Z) : string :=
  name group_by_prop ++ " with value " ++ str_int val.

Definition _build_unique_val_groups (self : t) (obj_list : list Rec)
    (group_by_prop : P) : dict string (Rec -> bool) :=
  fold_left
    (fun m val =>
       dict_set String.eqb m (group_name group_by_prop val)
         (fun obj =>
            PropHandler.get_prop (_prop_handler self) obj group_by_prop =? val))
    (unique_vals self obj_list group_by_prop) [].

Definition _run_group_by (obj_list : list Rec)
    (group_mappings : dict string (Rec -> bool)) : dict string (list Rec) :=
  map (fun nm => (fst nm, filter (snd nm) obj_list)) group_mappings.

(** [run_parser] gives back the parser (it stores the groups it derives),
    the heap (it sorts the list object in place) and its return value. *)
Definition run_parser (self : t) (h : heap Rec) (obj_list : ref)
  : t * heap Rec * output :=
  match h obj_list with
  | [] => (self, h, OutList obj_list)
  | _ :: _ =>
      let '(h, obj_list) :=
        match _sort_by self with
        | [] => (h, obj_list)
        | _ :: _ => _run_sort self h obj_list (_sort_by self)
        end in
      match _group_by self with
      | Some group_by =>
          let self :=
            match _group_mappings self with
            | [] =>
                set_group_mappings self
                  (_build_unique_val_groups self (h obj_list) group_by)
            | _ :: _ => self
            end in
          (self, h, OutGroups (_run_group_by (h obj_list) (_group_mappings self)))
      | None => (self, h, OutList obj_list)
      end
  end.

(** *** Vocabulary for the statements about the parser *)

(** The sort passes of [_run_sort] on the contents of the list. *)
Definition sort_passes (ph : PropHandler.t Rec P) (specs : list (P * bool))
    (l : list Rec) : list Rec :=
  fold_left
    (fun acc kr => list_sort (fun obj => PropHandler.get_prop ph obj (fst kr)) (snd kr) acc)
    (rev specs) l.

(** Lexicographic order of a spec sequence: the first spec decides, a later
    one only where all earlier keys tie; each key in its own direction. *)
Fixpoint lex_le (ph : PropHandler.t Rec P) (specs : list (P * bool))
    (a b : Rec) : Prop :=
  match specs with
  | [] => True
  | (p, descending) :: rest =>
      dir_lt (fun obj => PropHandler.get_prop ph obj p) descending a b \/
      (PropHandler.get_prop ph a p = PropHandler.get_prop ph b p /\
       lex_le ph rest a b)
  end.

(** [b] has the same value as [a] under every key of the sequence. *)
Definition tied (ph : PropHandler.t Rec P) (specs : list (P * bool))
    (a b : Rec) : bool :=
  forallb
    (fun kr => PropHandler.get_prop ph b (fst kr) =? PropHandler.get_prop ph a (fst kr))
    specs.

(** A sort spec whose property the property handler supports. *)
Definition supported (ph : PropHandler.t Rec P) (kr : P * bool) : Prop :=
  PropHandler.check_supported ph (fst kr) = true.

(** The value the grouping looks at. *)
Definition group_val (self : t) (group_by : P) (obj : Rec) : Z :=
  PropHandler.get_prop (_prop_handler self) obj group_by.

(** The first occurrences of a list of values, in order. *)
Fixpoint first_seen (seen vals : list Z) : list Z :=
  match vals with
  | [] => []
  | v :: r =>
      if existsb (Z.eqb v) seen then first_seen seen r
      else v :: first_seen (seen ++ [v]) r
  end.

End Defs.
Arguments t P Rec : clear implicits.
Arguments output Rec : clear implicits.

End QueryParser.

(** ** [ServerProperties] ([enums/query/props/server_properties.py]) *)
Module ServerProperties.
Import Py.

Inductive t : Type :=
| FLAVOR_ID
| HYPERVISOR_ID
| IMAGE_ID
| PROJECT_ID
| SERVER_CREATION_DATE
| SERVER_DESCRIPTION
| SERVER_ID
| SERVER_LAST_UPDATED_DATE
| SERVER_NAME
| SERVER_STATUS
| USER_ID.

(** [for i in ServerProperties]: the members in definition order. *)
Definition members : list t :=
  [FLAVOR_ID; HYPERVISOR_ID; IMAGE_ID; PROJECT_ID; SERVER_CREATION_DATE;
   SERVER_DESCRIPTION; SERVER_ID; SERVER_LAST_UPDATED_DATE; SERVER_NAME;
   SERVER_STATUS; USER_ID].

(** [auto()] numbers the members from 1. *)
Definition value (p : t) : Z :=
  match p with
  | FLAVOR_ID => 1
  | HYPERVISOR_ID => 2
  | IMAGE_ID => 3
  | PROJECT_ID => 4
  | SERVER_CREATION_DATE => 5
  | SERVER_DESCRIPTION => 6
  | SERVER_ID => 7
  | SERVER_LAST_UPDATED_DATE => 8
  | SERVER_NAME => 9
  | SERVER_STATUS => 10
  | USER_ID => 11
  end.

Definition member_name (p : t) : string :=
  match p with
  | FLAVOR_ID => "FLAVOR_ID"
  | HYPERVISOR_ID => "HYPERVISOR_ID"
  | IMAGE_ID => "IMAGE_ID"
  | PROJECT_ID => "PROJECT_ID"
  | SERVER_CREATION_DATE => "SERVER_CREATION_DATE"
  | SERVER_DESCRIPTION => "SERVER_DESCRIPTION"
  | SERVER_ID => "SERVER_ID"
  | SERVER_LAST_UPDATED_DATE => "SERVER_LAST_UPDATED_DATE"
  | SERVER_NAME => "SERVER_NAME"
  | SERVER_STATUS => "SERVER_STATUS"
  | USER_ID => "USER_ID"
  end.

Definition eqb (a b : t) : bool := value a =? value b.

Lemma eqb_eq a b : eqb a b = true <-> a = b.
Proof.
  unfold eqb. split.
  - destruct a, b; simpl; intros E; try reflexivity; discriminate E.
  - intros ->. apply Z.eqb_refl.
Qed.

#[global] Instance enum : Enum t :=
  {| name := member_name; enum_eqb := eqb; enum_eqb_eq := eqb_eq |}.

(** The table of [get_prop_func], in source order. *)
Definition mapping : dict t (pyval -> result pyval) :=
  [ (USER_ID, fun a => subscript a "user_id");
    (HYPERVISOR_ID, fun a => subscript a "host_id");
    (SERVER_ID, fun a => subscript a "id");
    (SERVER_NAME, fun a => subscript a "name");
    (SERVER_DESCRIPTION, fun a => subscript a "description");
    (SERVER_STATUS, fun a => subscript a "status");
    (SERVER_CREATION_DATE, fun a => subscript a "created_at");
    (SERVER_LAST_UPDATED_DATE, fun a => subscript a "updated_at");
    (FLAVOR_ID, fun a => subscript a "flavor_id");
    (IMAGE_ID, fun a => subscript a "image_id");
    (PROJECT_ID,
     fun a =>
       bind (subscript a "location") (fun l =>
       bind (subscript l "project") (fun pr => subscript pr "id"))) ].

Definition not_supported_msg : string :=
  "Error: failed to get property mapping, property is not supported in ServerProperties".

(** What a caller can hand to [get_prop_func]: a member of an
    enumeration ([inl] a member of [ServerProperties], [inr] a member of
    another enumeration [Q]), or an object that is no [Enum] member at
    all. *)
Inductive argument (Q : Type) : Type :=
| EnumMember (prop : t + Q)
| NotEnum (obj : pyval).
Arguments EnumMember {Q} prop.
Arguments NotEnum {Q} obj.

(** [prop in ServerProperties], as [EnumMeta.__contains__] of Python 3.8
    to 3.11 decides it: a member of another enumeration is not in the
    class, an object that is no [Enum] member raises [TypeError]. *)
Definition contains {Q : Type} (prop : argument Q) : result bool :=
  match prop with
  | EnumMember (inl _) => Ok true
  | EnumMember (inr _) => Ok false
  | NotEnum _ => Raise TypeError
  end.

(** [get_prop_func(prop)] for any argument: the assertions on the table,
    the membership test, then [mapping[prop]]. *)
Definition get_prop_func_any {Q : Type} {EnumQ : Enum Q} (prop : argument Q)
  : result (pyval -> result pyval) :=
  if negb (forallb (fun i => dict_mem eqb mapping i) members)
  then Raise AssertionError
  else
    bind (contains prop) (fun known =>
      if negb known
      then Raise (QueryPropertyMappingError not_supported_msg)
      else
        match prop with
        | EnumMember (inl p) =>
            match dict_get eqb mapping p with
            | Some f => Ok f
            | None => Raise (KeyError (member_name p))
            end
        | EnumMember (inr q) => Raise (KeyError (name q))
        | NotEnum _ => Raise TypeError
        end).

(** [get_prop_func(prop)] called as documented, with an [Enum] member. *)
Definition get_prop_func {Q : Type} {EnumQ : Enum Q} (prop : t + Q)
  : result (pyval -> result pyval) :=
  get_prop_func_any (EnumMember prop).

Definition get_marker_prop_func : result (pyval -> result pyval) :=
  get_prop_func (Q := Empty_set) (inl SERVER_ID).

Definition could_not_find_msg (val : string) : string :=
  "Could not find Server Property " ++ val ++ ". "
  ++ "Available properties are " ++ String.concat "," (map member_name members).

(** [from_string(val)]: [ServerProperties[val.upper()]], a [KeyError]
    turned into [ParseQueryError]. *)
Definition from_string (val : ascii_text) : result t :=
  match by_name members (upper val) with
  | Some p => Ok p
  | None => Raise (ParseQueryError (could_not_find_msg (text val)))
  end.

End ServerProperties.

(** ** [SortOrder] ([enums/query/sort_order.py]) *)
Module SortOrder.
Import Py.

Inductive t : Type :=
| ASC
| DESC.

Definition members : list t := [ASC; DESC].

(** [ASC = False], [DESC = True]: the value is the [reverse] flag. *)
Definition value (o : t) : bool :=
  match o with
  | ASC => false
  | DESC => true
  end.

Definition member_name (o : t) : string :=
  match o with
  | ASC => "ASC"
  | DESC => "DESC"
  end.

Definition eqb (a b : t) : bool := Bool.eqb (value a) (value b).

Lemma sort_order_eqb_eq a b : eqb a b = true <-> a = b.
Proof. destruct a, b; vm_compute; split; congruence. Qed.

#[global] Instance enum : Enum t :=
  {| name := member_name; enum_eqb := eqb; enum_eqb_eq := sort_order_eqb_eq |}.

Definition could_not_find_msg (val : string) : string :=
  "Could not find convert " ++ val ++ " into a sort order enum. "
  ++ "Available orders are " ++ String.concat "," (map member_name members).

Definition from_string (val : ascii_text) : result t :=
  match by_name members (upper val) with
  | Some o => Ok o
  | None => Raise (ParseQueryError (could_not_find_msg (text val)))
  end.

End SortOrder.

(** ** [ServerStatus] ([enums/server_status.py]) *)
Module ServerStatus.
Import Py.

Inductive t : Type :=
| SUSPENDED
| ACTIVE
| SHUTOFF
| ERROR.

Definition members : list t := [SUSPENDED; ACTIVE; SHUTOFF; ERROR].

Definition member_name (s : t) : string :=
  match s with
  | SUSPENDED => "SUSPENDED"
  | ACTIVE => "ACTIVE"
  | SHUTOFF => "SHUTOFF"
  | ERROR => "ERROR"
  end.

Definition eqb (a b : t) : bool := String.eqb (member_name a) (member_name b).

Lemma server_status_eqb_eq a b : eqb a b = true <-> a = b.
Proof. destruct a, b; vm_compute; split; congruence. Qed.

#[global] Instance enum : Enum t :=
  {| name := member_name; enum_eqb := eqb; enum_eqb_eq := server_status_eqb_eq |}.

(** [from_string(val)]: [ServerStatus[val.upper()]]; the [KeyError] of an
    unknown name is not caught. *)
Definition from_string (val : ascii_text) : result t :=
  match by_name members (upper val) with
  | Some s => Ok s
  | None => Raise (KeyError (upper val))
  end.

End ServerStatus.

(** ** [ClientSideHandler] ([openstack_query/handlers/client_side_handler.py]) *)
Module ClientSideHandler.
Import Py.

(** What [inspect.signature] tells about a parameter. *)
Inductive ParamKind : Type :=
| POSITIONAL_ONLY
| POSITIONAL_OR_KEYWORD
| VAR_POSITIONAL
| KEYWORD_ONLY
| VAR_KEYWORD.

Definition kind_eqb (a b : ParamKind) : bool :=
  match a, b with
  | POSITIONAL_ONLY, POSITIONAL_ONLY
  | POSITIONAL_OR_KEYWORD, POSITIONAL_OR_KEYWORD
  | VAR_POSITIONAL, VAR_POSITIONAL
  | KEYWORD_ONLY, KEYWORD_ONLY
  | VAR_KEYWORD, VAR_KEYWORD => true
  | _, _ => false
  end.

(** An annotation is absent ([inspect.Parameter.empty]), [typing.Any], or a
    class. *)
Inductive Annotation : Type :=
| AnnEmpty
| AnnAny
| AnnClass (c : pytype).

(** [default = None] stands for [inspect.Parameter.empty]. *)
Record Param : Type := mkParam {
  param_name : string;
  kind : ParamKind;
  default : option pyval;
  annotation : Annotation
}.

(** A filter function: its name, its signature, and what a call
    [func(item_prop, **kwargs)] does. *)
Record FilterFunc : Type := mkFunc {
  __name__ : string;
  signature : list Param;
  call : pyval -> dict string pyval -> result bool
}.

(** An entry of a preset's property list: a property, or ["*"]. *)
Inductive Entry (P : Type) : Type :=
| Star
| Member (p : P).
Arguments Star {P}.
Arguments Member {P} p.

Definition class_repr (c : pytype) : string :=
  match c with
  | TNoneType => "<class 'NoneType'>"
  | TBool => "<class 'bool'>"
  | TInt => "<class 'int'>"
  | TStr => "<class 'str'>"
  | TList => "<class 'list'>"
  | TDict => "<class 'dict'>"
  | TObject => "<class 'object'>"
  end.

Definition type_of (v : pyval) : pytype :=
  match v with
  | PyNone => TNoneType
  | PyBool _ => TBool
  | PyInt _ => TInt
  | PyStr _ => TStr
  | PyList _ => TList
  | PyDict _ => TDict
  end.

Definition has_kind (k : ParamKind) (parameters : list Param) : bool :=
  existsb (fun param => kind_eqb (kind param) k) parameters.

(** The [for param in parameters] loop of [_check_filter_func]: the reason
    of the first [return False, ...], if any. *)
Fixpoint check_parameters (parameters : list Param)
    (func_kwargs : dict string pyval) : option string :=
  match parameters with
  | [] => None
  | param :: rest =>
      if kind_eqb (kind param) POSITIONAL_OR_KEYWORD then
        match dict_get String.eqb func_kwargs (param_name param) with
        | Some kwargs_value =>
            match annotation param with
            | AnnClass param_type =>
                if negb (isinstance kwargs_value param_type)
                then Some (param_name param ++ " given has incorrect type, "
                           ++ "expected " ++ class_repr param_type
                           ++ ", found " ++ class_repr (type_of kwargs_value))
                else check_parameters rest func_kwargs
            | _ => check_parameters rest func_kwargs
            end
        | None =>
            match default param with
            | None => Some (param_name param ++ " expected but not given")
            | Some _ => check_parameters rest func_kwargs
            end
        end
      else check_parameters rest func_kwargs
  end.

(** [set(func_kwargs.keys()) - set(p.name for p in parameters)] *)
Definition unexpected_vals (parameters : list Param)
    (func_kwargs : dict string pyval) : list string :=
  filter
    (fun k => negb (existsb (fun p => String.eqb (param_name p) k) parameters))
    (dict_keys func_kwargs).

(** The text of a set of strings; a set has no order of its own, the keys
    are written in the order of [func_kwargs]. *)
Definition set_repr (l : list string) : string :=
  "{" ++ String.concat ", " (map (fun k => "'" ++ k ++ "'") l) ++ "}".

(** [_check_filter_func(func, func_kwargs)].  The debug log evaluates
    [func_kwargs.items()], so [func_kwargs=None] raises. *)
Definition _check_filter_func (func : FilterFunc)
    (func_kwargs : option (dict string pyval)) : result (bool * string) :=
  let parameters := tl (signature func) in
  let has_varargs := has_kind VAR_POSITIONAL parameters in
  let has_varkwargs := has_kind VAR_KEYWORD parameters in
  match func_kwargs with
  | None => Raise AttributeError
  | Some func_kwargs =>
      match check_parameters parameters func_kwargs with
      | Some reason => Ok (false, reason)
      | None =>
          if negb has_varargs && negb has_varkwargs then
            match unexpected_vals parameters func_kwargs with
            | [] => Ok (true, "")
            | (_ :: _) as vals =>
                Ok (false, "unexpected arguments: '" ++ set_repr vals ++ "'")
            end
          else Ok (true, "")
      end
  end.

(** [_filter_func_wrapper]: only [AttributeError] is caught. *)
Definition _filter_func_wrapper (item : pyval)
    (selected_filter_func : FilterFunc)
    (selected_prop_func : pyval -> result pyval)
    (filter_func_kwargs : option (dict string pyval)) : result bool :=
  match selected_prop_func item with
  | Raise AttributeError => Ok false
  | Raise e => Raise e
  | Ok item_prop =>
      match filter_func_kwargs with
      | Some ((_ :: _) as kwargs) => call selected_filter_func item_prop kwargs
      | _ => call selected_filter_func item_prop []
      end
  end.

(** *** Vocabulary for the statements about [_check_filter_func] *)

(** A parameter the loop rejects: positional-or-keyword, and either absent
    from the keyword arguments without a default, or present with a value
    that is no instance of the class it is annotated with. *)
Definition offending (func_kwargs : dict string pyval) (param : Param) : bool :=
  kind_eqb (kind param) POSITIONAL_OR_KEYWORD
  && match dict_get String.eqb func_kwargs (param_name param) with
     | Some v =>
         match annotation param with
         | AnnClass c => negb (isinstance v c)
         | _ => false
         end
     | None =>
         match default param with
         | None => true
         | Some _ => false
         end
     end.

Definition missing_reason (param : Param) : string :=
  param_name param ++ " expected but not given".

Definition type_reason (param : Param) (c : pytype) (v : pyval) : string :=
  param_name param ++ " given has incorrect type, "
  ++ "expected " ++ class_repr c ++ ", found " ++ class_repr (type_of v).

Section Handler.
Context {Preset P : Type} {EnumPreset : Enum Preset} {EnumP : Enum P}.

(** A handler: the preset/property table of the base class, and the
    table of filter functions that a subclass supplies. *)
Record t : Type := mk {
  _filter_function_mappings : dict Preset (list (Entry P));
  _filter_functions : dict Preset FilterFunc
}.

Definition preset_known (self : t) (preset : Preset) : bool :=
  dict_mem enum_eqb (_filter_function_mappings self) preset.

Definition entry_is (prop : P) (e : Entry P) : bool :=
  match e with
  | Member p => enum_eqb p prop
  | Star => false
  end.

Definition is_wildcard (l : list (Entry P)) : bool :=
  match l with
  | [Star] => true
  | _ => false
  end.

Definition check_supported (self : t) (preset : Preset) (prop : P) : bool :=
  if negb (preset_known self preset) then false
  else
    match dict_get enum_eqb (_filter_function_mappings self) preset with
    | Some props =>
        if existsb (entry_is prop) props then true
        else if is_wildcard props then true
        else false
    | None => false
    end.

Definition not_found_msg (preset : Preset) (prop : P) : string :=
  "Preset Not Found: failed to find filter_function mapping for preset "
  ++ "'" ++ name preset ++ "' and property '" ++ name prop ++ "'"
  ++ "does the preset work with property specified?".

Definition argument_error_msg (preset : Preset) (prop : P) (reason : string)
  : string :=
  "Preset Argument Error: failed to build client-side filter function for preset:prop: "
  ++ "'" ++ name preset ++ "':'" ++ name prop ++ "' "
  ++ "reason: " ++ reason.

Definition get_filter_func (self : t) (preset : Preset) (prop : P)
    (prop_func : pyval -> result pyval)
    (filter_func_kwargs : option (dict string pyval))
  : result (pyval -> result bool) :=
  let filter_func :=
    if check_supported self preset prop
    then dict_get enum_eqb (_filter_functions self) preset
    else None in
  match filter_func with
  | None => Raise (QueryPresetMappingError (not_found_msg preset prop))
  | Some filter_func =>
      bind (_check_filter_func filter_func filter_func_kwargs) (fun vr =>
        if negb (fst vr)
        then Raise (QueryPresetMappingError (argument_error_msg preset prop (snd vr)))
        else Ok (fun resource =>
                   _filter_func_wrapper resource filter_func prop_func
                     filter_func_kwargs))
  end.

End Handler.
Arguments t Preset P : clear implicits.

End ClientSideHandler.

(** ** [QueryBuilder] ([openstack_query/query_builder.py]) *)
Module QueryBuilder.
Import Py.

(** Modelled from the spec: the server-side handler, whose source is not
    part of the files at hand: given a preset, a property and the keyword
    arguments it returns the remote listing parameters, or nothing. *)
Record ServerSideHandler (Preset P : Type) : Type := mkServerSide {
  get_filters :
    Preset -> P -> option (dict string pyval) -> option (dict string pyval)
}.
Arguments mkServerSide {Preset P}.
Arguments get_filters {Preset P}.

Section Builder.
Context {Preset P : Type} {EnumPreset : Enum Preset} {EnumP : Enum P}.

Record t : Type := mk {
  _client_side_handlers : list (ClientSideHandler.t Preset P);
  _prop_handler : PropHandler.t pyval P;
  _server_side_handler : option (ServerSideHandler Preset P);
  _client_side_filter : option (pyval -> result bool);
  _server_side_filters : option (dict string pyval)
}.

Definition __init__ (prop_handler : PropHandler.t pyval P)
    (client_side_handlers : list (ClientSideHandler.t Preset P))
    (server_side_handler : option (ServerSideHandler Preset P)) : t :=
  mk client_side_handlers prop_handler server_side_handler None None.

Definition client_side_filter (self : t) := _client_side_filter self.
Definition server_side_filters (self : t) := _server_side_filters self.

Definition set_client_side_filter (self : t) (f : pyval -> result bool) : t :=
  mk (_client_side_handlers self) (_prop_handler self)
     (_server_side_handler self) (Some f) (_server_side_filters self).
Definition set_server_side_filters (self : t)
    (f : option (dict string pyval)) : t :=
  mk (_client_side_handlers self) (_prop_handler self)
     (_server_side_handler self) (_client_side_filter self) f.

Definition unknown_preset_msg (preset : Preset) (prop : P) : string :=
  "No client-side handler found for preset '" ++ name preset
  ++ "' - property '" ++ name prop ++ "' pair "
  ++ "- resource likely does not support querying using this preset".

Definition unsupported_pair_msg (preset : Preset) : string :=
  "No client-side handler found for preset '" ++ name preset ++ "'"
  ++ "- this query is likely misconfigured/preset is not supported on resource".

Definition _get_preset_handler (self : t) (preset : Preset) (prop : P)
  : result (ClientSideHandler.t Preset P) :=
  if negb (existsb (fun i => ClientSideHandler.preset_known i preset)
             (_client_side_handlers self))
  then Raise (QueryPresetMappingError (unknown_preset_msg preset prop))
  else
    match find (fun i => ClientSideHandler.check_supported i preset prop)
            (_client_side_handlers self) with
    | Some i => Ok i
    | None => Raise (QueryPresetMappingError (unsupported_pair_msg preset))
    end.

Definition already_set_msg : string := "Error: Already set a query preset".

Definition no_prop_mapping_msg (prop : P) : string :=
  "
                Error: failed to get property mapping, given property
                " ++ name prop ++ " is not supported in prop_handler
                ".

(** [parse_where] gives back the builder, which keeps what was assigned
    before an exception, and the outcome of the call. *)
Definition parse_where (self : t) (preset : Preset) (prop : P)
    (preset_kwargs : option (dict string pyval)) : t * result unit :=
  match _client_side_filter self with
  | Some _ => (self, Raise (ParseQueryError already_set_msg))
  | None =>
      match PropHandler.get_prop_func (_prop_handler self) prop with
      | None => (self, Raise (QueryPropertyMappingError (no_prop_mapping_msg prop)))
      | Some prop_func =>
          match _get_preset_handler self preset prop with
          | Raise e => (self, Raise e)
          | Ok preset_handler =>
              match ClientSideHandler.get_filter_func preset_handler preset prop
                      prop_func preset_kwargs with
              | Raise e => (self, Raise e)
              | Ok f =>
                  let self := set_client_side_filter self f in
                  match _server_side_handler self with
                  | None => (self, Raise AttributeError)
                  | Some h =>
                      (set_server_side_filters self
                         (get_filters h preset prop preset_kwargs),
                       Ok tt)
                  end
              end
          end
      end
  end.

End Builder.
Arguments t Preset P : clear implicits.

End QueryBuilder.

(** ** Test doubles: a preset enumeration, filter functions, handlers and
    server records on which the statements below are run *)
Module Fixture.
Import Py.

Inductive Preset : Type :=
| EQUAL_TO
| ANY_IN.

Definition preset_eqb (a b : Preset) : bool :=
  match a, b with
  | EQUAL_TO, EQUAL_TO | ANY_IN, ANY_IN => true
  | _, _ => false
  end.

Lemma preset_eqb_eq a b : preset_eqb a b = true <-> a = b.
Proof. destruct a, b; simpl; split; congruence. Qed.

#[global] Instance enum_preset : Enum Preset :=
  {| name := fun p => match p with EQUAL_TO => "EQUAL_TO" | ANY_IN => "ANY_IN" end;
     enum_eqb := preset_eqb;
     enum_eqb_eq := preset_eqb_eq |}.

Definition scalar_eqb (a b : pyval) : bool :=
  match a, b with
  | PyInt x, PyInt y => x =? y
  | PyStr x, PyStr y => String.eqb x y
  | PyNone, PyNone => true
  | _, _ => false
  end.

(** [def prop_equal_to(prop: Any, value) -> bool] *)
Definition prop_equal_to : ClientSideHandler.FilterFunc :=
  ClientSideHandler.mkFunc "prop_equal_to"
    [ ClientSideHandler.mkParam "prop" ClientSideHandler.POSITIONAL_OR_KEYWORD
        None ClientSideHandler.AnnAny;
      ClientSideHandler.mkParam "value" ClientSideHandler.POSITIONAL_OR_KEYWORD
        None ClientSideHandler.AnnEmpty ]
    (fun prop kwargs =>
       match dict_get String.eqb kwargs "value" with
       | Some v => Ok (scalar_eqb prop v)
       | None => Raise TypeError
       end).

(** [def prop_between(prop: Any, low: int, high: int = 10) -> bool] *)
Definition prop_between : ClientSideHandler.FilterFunc :=
  ClientSideHandler.mkFunc "prop_between"
    [ ClientSideHandler.mkParam "prop" ClientSideHandler.POSITIONAL_OR_KEYWORD
        None ClientSideHandler.AnnAny;
      ClientSideHandler.mkParam "low" ClientSideHandler.POSITIONAL_OR_KEYWORD
        None (ClientSideHandler.AnnClass TInt);
      ClientSideHandler.mkParam "high" ClientSideHandler.POSITIONAL_OR_KEYWORD
        (Some (PyInt 10)) (ClientSideHandler.AnnClass TInt) ]
    (fun prop kwargs =>
       match prop, dict_get String.eqb kwargs "low" with
       | PyInt x, Some (PyInt lo) =>
           match dict_get String.eqb kwargs "high" with
           | Some (PyInt hi) => Ok ((lo <=? x) && (x <=? hi))
           | Some _ => Raise TypeError
           | None => Ok ((lo <=? x) && (x <=? 10))
           end
       | _, _ => Raise TypeError
       end).

(** [def prop_is(prop, *, value) -> bool]: [value] is keyword-only. *)
Definition prop_is : ClientSideHandler.FilterFunc :=
  ClientSideHandler.mkFunc "prop_is"
    [ ClientSideHandler.mkParam "prop" ClientSideHandler.POSITIONAL_OR_KEYWORD
        None ClientSideHandler.AnnEmpty;
      ClientSideHandler.mkParam "value" ClientSideHandler.KEYWORD_ONLY
        None ClientSideHandler.AnnEmpty ]
    (fun prop kwargs =>
       match dict_get String.eqb kwargs "value" with
       | Some v => Ok (scalar_eqb prop v)
       | None => Raise TypeError
       end).

(** A filter function that raises whenever it is called. *)
Definition prop_boom : ClientSideHandler.FilterFunc :=
  ClientSideHandler.mkFunc "prop_boom"
    [ ClientSideHandler.mkParam "prop" ClientSideHandler.POSITIONAL_OR_KEYWORD
        None ClientSideHandler.AnnEmpty ]
    (fun _ _ => Raise TypeError).

(** A handler for [EQUAL_TO] on every property. *)
Definition handler_generic
  : ClientSideHandler.t Preset ServerProperties.t :=
  ClientSideHandler.mk
    [(EQUAL_TO, [ClientSideHandler.Star])]
    [(EQUAL_TO, prop_equal_to)].

(** A handler for [ANY_IN] on [SERVER_NAME] only, and one that claims
    [EQUAL_TO] for [SERVER_ID] with another function. *)
Definition handler_names
  : ClientSideHandler.t Preset ServerProperties.t :=
  ClientSideHandler.mk
    [(ANY_IN, [ClientSideHandler.Member ServerProperties.SERVER_NAME])]
    [(ANY_IN, prop_equal_to)].

Definition handler_ids
  : ClientSideHandler.t Preset ServerProperties.t :=
  ClientSideHandler.mk
    [(EQUAL_TO, [ClientSideHandler.Member ServerProperties.SERVER_ID])]
    [(EQUAL_TO, prop_between)].

Definition handler_keyword_only
  : ClientSideHandler.t Preset ServerProperties.t :=
  ClientSideHandler.mk
    [(EQUAL_TO, [ClientSideHandler.Star])]
    [(EQUAL_TO, prop_is)].

(** A property handler over [ServerProperties]: the accessors are those
    of [ServerProperties.get_prop_func]; [get_prop] reads an integer
    field. *)
Definition accessor (p : ServerProperties.t) : option (pyval -> result pyval) :=
  match ServerProperties.get_prop_func (Q := Empty_set) (inl p) with
  | Ok f => Some f
  | Raise _ => None
  end.

Definition prop_handler : PropHandler.t pyval ServerProperties.t :=
  PropHandler.mk
    (fun _ => true)
    accessor
    (fun obj p =>
       match accessor p with
       | Some f => match f obj with Ok (PyInt z) => z | _ => 0 end
       | None => 0
       end).

Definition server_side : QueryBuilder.ServerSideHandler Preset ServerProperties.t :=
  QueryBuilder.mkServerSide (fun _ _ _ => None).

Definition builder : QueryBuilder.t Preset ServerProperties.t :=
  QueryBuilder.__init__ prop_handler [handler_names; handler_ids; handler_generic]
    (Some server_side).

(** A server record with a flavor and an image number. *)
Definition server (flavor image : Z) : pyval :=
  PyDict [("flavor_id", PyInt flavor); ("image_id", PyInt image)].

(** A server record without a ["user_id"]. *)
Definition server_without_user : pyval :=
  PyDict [("id", PyStr "srv-1"); ("name", PyStr "web")].

(** A server record whose ["location"] is [None]. *)
Definition server_without_location : pyval :=
  PyDict [("id", PyStr "srv-2"); ("location", PyNone)].

Definition parser : QueryParser.t ServerProperties.t pyval :=
  QueryParser.__init__ prop_handler.

(** The ranges and the records of the grouping examples: flavors 1 to 5,
    and flavors 2, 1, 2, 3. *)
Definition low_high : dict string (list Z) :=
  [("low", [1; 2]); ("high", [3; 4])].

Definition five_servers : list pyval :=
  [server 1 0; server 2 0; server 3 0; server 4 0; server 5 0].

Definition four_servers : list pyval :=
  [server 2 10; server 1 11; server 2 12; server 3 13].

(** A heap whose list object 0 holds the given records. *)
Definition heap_of (l : list pyval) : heap pyval :=
  fun r => match r with O => l | S _ => [] end.

(** A property handler that knows the flavor and the image only. *)
Definition prop_handler_flavor_image : PropHandler.t pyval ServerProperties.t :=
  PropHandler.mk
    (fun p =>
       match p with
       | ServerProperties.FLAVOR_ID | ServerProperties.IMAGE_ID => true
       | _ => false
       end)
    (fun p => if PropHandler.check_supported prop_handler p then accessor p else None)
    (PropHandler.get_prop prop_handler).

Definition parser_flavor_image : QueryParser.t ServerProperties.t pyval :=
  QueryParser.__init__ prop_handler_flavor_image.

(** A builder made without a server-side handler. *)
Definition builder_client_only : QueryBuilder.t Preset ServerProperties.t :=
  QueryBuilder.__init__ prop_handler [handler_generic] None.

End Fixture.

(** * Properties *)

(** ** Facts about [list.sort] *)
Module SortFacts.
Import Py.
Local Open Scope list_scope.

Section Stable.
Context {A : Type} (key : A -> Z).

(** A predicate that picks records out of one key class only. *)
Definition one_class (p : A -> bool) : Prop :=
  forall a b, p a = true -> p b = true -> key a = key b.

Lemma insert_by_perm x l : Permutation (x :: l) (insert_by key x l).
Proof.
  induction l as [|y r IH]; simpl; [reflexivity|].
  destruct (key y <? key x); [|reflexivity].
  rewrite perm_swap. now constructor.
Qed.

Lemma stable_sort_perm l : Permutation l (stable_sort key l).
Proof.
  induction l as [|x r IH]; simpl; [constructor|].
  rewrite <- insert_by_perm. now constructor.
Qed.

Lemma insert_by_sorted x l :
  StronglySorted (fun a b => key a <= key b) l ->
  StronglySorted (fun a b => key a <= key b) (insert_by key x l).
Proof.
  induction 1 as [|y r Hs IH Hall]; simpl.
  - repeat constructor.
  - destruct (Z.ltb_spec (key y) (key x)) as [Hlt|Hge].
    + constructor; [exact IH|].
      rewrite <- insert_by_perm. constructor; [lia|exact Hall].
    + constructor; [now constructor|].
      constructor; [exact Hge|].
      eapply Forall_impl; [|exact Hall]. simpl; intros; lia.
Qed.

Lemma stable_sort_sorted l :
  StronglySorted (fun a b => key a <= key b) (stable_sort key l).
Proof.
  induction l; simpl; [constructor|now apply insert_by_sorted].
Qed.

Lemma insert_by_filter p x l :
  one_class p -> filter p (insert_by key x l) = filter p (x :: l).
Proof.
  intros Hp. induction l as [|y r IH]; [reflexivity|].
  simpl. destruct (Z.ltb_spec (key y) (key x)) as [Hlt|Hge]; [|reflexivity].
  simpl in *. rewrite IH.
  destruct (p x) eqn:Ex, (p y) eqn:Ey; try reflexivity.
  specialize (Hp _ _ Ex Ey). lia.
Qed.

Lemma stable_sort_filter p l :
  one_class p -> filter p (stable_sort key l) = filter p l.
Proof.
  intros Hp. induction l as [|x r IH]; [reflexivity|].
  simpl stable_sort. rewrite insert_by_filter by exact Hp.
  simpl. now rewrite IH.
Qed.

Lemma filter_rev (p : A -> bool) l : filter p (rev l) = rev (filter p l).
Proof.
  induction l as [|x r IH]; [reflexivity|].
  simpl. rewrite filter_app, IH. simpl.
  destruct (p x); simpl; [reflexivity|now rewrite app_nil_r].
Qed.

Lemma sorted_snoc (R : A -> A -> Prop) l x :
  StronglySorted R l -> Forall (fun y => R y x) l ->
  StronglySorted R (l ++ [x]).
Proof.
  induction 1 as [|y r Hs IH Hall]; intros Hx; simpl.
  - repeat constructor.
  - inversion Hx; subst. constructor; [now apply IH|].
    apply Forall_app. split; [exact Hall|now repeat constructor].
Qed.

Lemma sorted_rev (R : A -> A -> Prop) l :
  StronglySorted R l -> StronglySorted (fun a b => R b a) (rev l).
Proof.
  induction 1 as [|y r Hs IH Hall]; simpl; [constructor|].
  apply sorted_snoc; [exact IH|].
  apply Forall_rev. exact Hall.
Qed.

Lemma sorted_filter (R : A -> A -> Prop) p l :
  StronglySorted R l -> StronglySorted R (filter p l).
Proof.
  induction 1 as [|y r Hs IH Hall]; simpl; [constructor|].
  destruct (p y); [|exact IH].
  constructor; [exact IH|].
  apply Forall_forall. intros z Hz. apply filter_In in Hz.
  rewrite Forall_forall in Hall. now apply Hall.
Qed.

(** One pass is a permutation, ordered in its direction, and leaves every
    key class in its input order. *)
Lemma list_sort_perm reverse l : Permutation l (list_sort key reverse l).
Proof.
  unfold list_sort. destruct reverse; [|apply stable_sort_perm].
  rewrite <- Permutation_rev, <- stable_sort_perm. apply Permutation_rev.
Qed.

Lemma list_sort_sorted reverse l :
  StronglySorted (dir_le key reverse) (list_sort key reverse l).
Proof.
  unfold list_sort, dir_le. destruct reverse.
  - apply (sorted_rev (fun a b => key a <= key b)). apply stable_sort_sorted.
  - apply stable_sort_sorted.
Qed.

Lemma list_sort_filter reverse p l :
  one_class p -> filter p (list_sort key reverse l) = filter p l.
Proof.
  intros Hp. unfold list_sort. destruct reverse.
  - rewrite filter_rev, stable_sort_filter, filter_rev by exact Hp.
    apply rev_involutive.
  - now apply stable_sort_filter.
Qed.

(** A pass over a list that an earlier order [R] already sorts: the result
    is ordered by the pass's key, and by [R] where the keys tie. *)
Lemma sorted_refine (R : A -> A -> Prop) reverse out :
  StronglySorted (dir_le key reverse) out ->
  (forall c, StronglySorted R (filter (fun a => key a =? c) out)) ->
  StronglySorted
    (fun a b => dir_lt key reverse a b \/ (key a = key b /\ R a b)) out.
Proof.
  induction 1 as [|x r Hs IH Hall]; intros Hcls; [constructor|].
  constructor.
  - apply IH. intros c. specialize (Hcls c). simpl in Hcls.
    destruct (key x =? c); [now inversion Hcls|exact Hcls].
  - specialize (Hcls (key x)). simpl in Hcls. rewrite Z.eqb_refl in Hcls.
    inversion Hcls as [|? ? _ Hx]; subst.
    rewrite Forall_forall in *. intros y Hy.
    destruct (Z.eq_dec (key x) (key y)) as [E|N].
    + right. split; [exact E|]. apply Hx. apply filter_In.
      split; [exact Hy|]. apply Z.eqb_eq. now symmetry.
    + left. specialize (Hall y Hy). unfold dir_le, dir_lt in *.
      destruct reverse; lia.
Qed.

Lemma list_sort_refine (R : A -> A -> Prop) reverse l :
  StronglySorted R l ->
  StronglySorted
    (fun a b => dir_lt key reverse a b \/ (key a = key b /\ R a b))
    (list_sort key reverse l).
Proof.
  intros HR. apply sorted_refine; [apply list_sort_sorted|].
  intros c. rewrite list_sort_filter.
  - now apply sorted_filter.
  - intros a b Ha Hb. apply Z.eqb_eq in Ha, Hb. congruence.
Qed.

End Stable.
End SortFacts.

(** ** Facts about dictionaries *)
Module DictFacts.
Import Py.
Local Open Scope list_scope.

Section Facts.
Context {K V : Type} (eqb : K -> K -> bool).
Hypothesis eqb_eq : forall a b, eqb a b = true <-> a = b.

Lemma dict_set_fresh (d : dict K V) k v :
  ~ In k (dict_keys d) -> dict_set eqb d k v = d ++ [(k, v)].
Proof.
  induction d as [|[k' v'] r IH]; simpl; intros Hn; [reflexivity|].
  destruct (eqb k' k) eqn:E.
  - apply eqb_eq in E. tauto.
  - f_equal. apply IH. tauto.
Qed.

Lemma dict_set_keys_present (d : dict K V) k v :
  In k (dict_keys d) -> dict_keys (dict_set eqb d k v) = dict_keys d.
Proof.
  induction d as [|[k' v'] r IH]; simpl; intros Hin; [tauto|].
  destruct (eqb k' k) eqn:E; [reflexivity|].
  simpl. f_equal. apply IH. destruct Hin as [->|H]; [|exact H].
  assert (eqb k k = true) by now apply eqb_eq. congruence.
Qed.

Lemma dict_update_fresh (l d : dict K V) :
  NoDup (dict_keys d ++ dict_keys l) -> dict_update eqb d l = d ++ l.
Proof.
  unfold dict_update. revert d.
  induction l as [|[k v] r IH]; simpl; intros d Hnd.
  - now rewrite app_nil_r.
  - rewrite dict_set_fresh.
    + rewrite IH; [now rewrite <- app_assoc|].
      unfold dict_keys in *. rewrite map_app. simpl.
      rewrite <- app_assoc. exact Hnd.
    + apply NoDup_remove_2 in Hnd. intros Hin. apply Hnd.
      apply in_or_app. now left.
Qed.

Lemma fold_dict_set_fresh {X : Type} (kf : X -> K) (vf : X -> V) xs
    (d : dict K V) :
  NoDup (dict_keys d ++ map kf xs) ->
  fold_left (fun m x => dict_set eqb m (kf x) (vf x)) xs d
  = d ++ map (fun x => (kf x, vf x)) xs.
Proof.
  revert d. induction xs as [|x r IH]; simpl; intros d Hnd.
  - now rewrite app_nil_r.
  - rewrite dict_set_fresh.
    + rewrite IH; [now rewrite <- app_assoc|].
      unfold dict_keys in *. rewrite map_app. simpl.
      rewrite <- app_assoc. exact Hnd.
    + apply NoDup_remove_2 in Hnd. intros Hin. apply Hnd.
      apply in_or_app. now left.
Qed.

Lemma dict_update_nodup (l : dict K V) :
  NoDup (dict_keys l) -> dict_update eqb [] l = l.
Proof. intros H. now rewrite dict_update_fresh. Qed.

End Facts.
End DictFacts.

(** ** Facts about strings *)
Module StringFacts.
Import Py.

Lemma append_inj_l (a b c : string) : (a ++ b = a ++ c)%string -> b = c.
Proof.
  induction a as [|x a IH]; simpl; intros H; [exact H|].
  injection H as H. now apply IH.
Qed.

Lemma prefix_append (a b : string) : String.prefix a (a ++ b) = true.
Proof.
  induction a as [|x a IH]; simpl; [now destruct b|].
  destruct (ascii_dec x x); [exact IH|contradiction].
Qed.

Lemma has_infix_prefix (pat s : string) :
  String.prefix pat s = true -> has_infix pat s = true.
Proof. destruct s; simpl; intros ->; reflexivity. Qed.

Lemma has_infix_append (a pat b : string) :
  has_infix pat (a ++ pat ++ b) = true.
Proof.
  induction a as [|x a IH].
  - apply has_infix_prefix. apply (prefix_append pat b).
  - change (has_infix pat (String x (a ++ pat ++ b)) = true).
    change ((if String.prefix pat (String x (a ++ pat ++ b)) then true
             else has_infix pat (a ++ pat ++ b)) = true).
    rewrite IH.
    now destruct (String.prefix pat (String x (a ++ pat ++ b))).
Qed.

Lemma str_int_inj (v w : Z) : str_int v = str_int w -> v = w.
Proof.
  unfold str_int. intros H.
  assert (E : Some (Z.to_int v) = Some (Z.to_int w)).
  { rewrite <- !NilEmpty.isi. now rewrite H. }
  injection E as E.
  rewrite <- (DecimalZ.of_to v), <- (DecimalZ.of_to w). now rewrite E.
Qed.

End StringFacts.

(** ** The result parser *)
Module ParserFacts.
Import Py QueryParser SortFacts.
Local Open Scope list_scope.

Section Sorting.
Context {P : Type} {EnumP : Enum P} {Rec : Type}.
Implicit Types (self : QueryParser.t P Rec) (h : heap Rec) (l : list Rec).
Implicit Types (ph : PropHandler.t Rec P).

Lemma sort_passes_cons ph s specs l :
  sort_passes ph (s :: specs) l
  = list_sort (fun obj => PropHandler.get_prop ph obj (fst s)) (snd s)
      (sort_passes ph specs l).
Proof. unfold sort_passes. simpl. now rewrite fold_left_app. Qed.

Lemma sort_passes_perm ph specs l : Permutation l (sort_passes ph specs l).
Proof.
  induction specs as [|s r IH]; [reflexivity|].
  rewrite sort_passes_cons, <- list_sort_perm. exact IH.
Qed.

Lemma sort_passes_nil ph specs : sort_passes ph specs [] = @nil Rec.
Proof. apply Permutation_nil, sort_passes_perm. Qed.

Lemma sorted_trivial l : StronglySorted (fun _ _ : Rec => True) l.
Proof.
  induction l; constructor; [assumption|].
  apply Forall_forall. trivial.
Qed.

Lemma sort_passes_sorted ph specs l :
  StronglySorted (lex_le ph specs) (sort_passes ph specs l).
Proof.
  induction specs as [|[p d] r IH].
  - apply sorted_trivial.
  - rewrite sort_passes_cons. simpl.
    apply (list_sort_refine (fun obj => PropHandler.get_prop ph obj p)
             (lex_le ph r)). exact IH.
Qed.

Lemma filter_andb (f g : Rec -> bool) l :
  filter (fun a => f a && g a) l = filter f (filter g l).
Proof.
  induction l as [|x r IH]; [reflexivity|].
  simpl. destruct (g x); simpl.
  - rewrite andb_true_r. destruct (f x); now rewrite IH.
  - now rewrite andb_false_r.
Qed.

Lemma sort_passes_stable ph specs l a :
  filter (tied ph specs a) (sort_passes ph specs l)
  = filter (tied ph specs a) l.
Proof.
  induction specs as [|[p d] r IH]; [reflexivity|].
  rewrite sort_passes_cons. simpl fst; simpl snd.
  rewrite list_sort_filter.
  - unfold tied in *. simpl forallb.
    rewrite !filter_andb. now rewrite IH.
  - intros x y Hx Hy. unfold tied in Hx, Hy. simpl in Hx, Hy.
    apply andb_prop in Hx, Hy. destruct Hx as [Hx _], Hy as [Hy _].
    apply Z.eqb_eq in Hx, Hy. congruence.
Qed.

(** In-place passes on the list object [r] change that object only. *)
Lemma run_sort_heap self h r specs r' :
  fst (_run_sort self h r specs) r'
  = if Nat.eqb r' r then sort_passes (_prop_handler self) specs (h r) else h r'.
Proof.
  unfold _run_sort, sort_passes. simpl fst.
  generalize (rev specs). intros ps. revert h.
  induction ps as [|s ps IH]; intros h; simpl.
  - destruct (Nat.eqb_spec r' r); congruence.
  - rewrite IH. unfold assign. rewrite Nat.eqb_refl.
    destruct (Nat.eqb r' r); reflexivity.
Qed.

Lemma run_sort_ref self h r specs : snd (_run_sort self h r specs) = r.
Proof. reflexivity. Qed.

(** The heap [run_parser] leaves behind. *)
Lemma run_parser_heap self h r r' :
  snd (fst (run_parser self h r)) r'
  = if Nat.eqb r' r then sort_passes (_prop_handler self) (_sort_by self) (h r)
    else h r'.
Proof.
  unfold run_parser.
  destruct (h r) as [|x l] eqn:Hr.
  - simpl. rewrite sort_passes_nil.
    destruct (Nat.eqb_spec r' r); congruence.
  - destruct (_sort_by self) as [|s specs] eqn:Hs.
    + destruct (_group_by self); simpl;
        (destruct (Nat.eqb_spec r' r); [subst r'; exact Hr|reflexivity]).
    + pose proof (run_sort_heap self h r (s :: specs) r') as Hh.
      destruct (_run_sort self h r (s :: specs)) as [h1 r1] eqn:E.
      simpl in Hh. rewrite Hr in Hh.
      destruct (_group_by self); simpl; exact Hh.
Qed.

(** What a successful [parse_sort_by] records. *)
Lemma parse_sort_by_loop_ok self sort_by self' :
  parse_sort_by_loop self sort_by = (self', Ok tt) ->
  self' = set_sort_by self (dict_update enum_eqb (_sort_by self) sort_by).
Proof.
  revert self. induction sort_by as [|[p o] r IH]; simpl; intros self H.
  - inversion H; subst. now destruct self'.
  - destruct (_check_prop_valid self p); [|discriminate].
    apply IH in H. subst self'. reflexivity.
Qed.

Lemma parse_sort_by_ok self sort_by self' :
  parse_sort_by self sort_by = (self', Ok tt) ->
  self' = set_sort_by self (dict_update enum_eqb [] sort_by).
Proof.
  unfold parse_sort_by. intros H. apply parse_sort_by_loop_ok in H.
  subst self'. reflexivity.
Qed.

Lemma run_parser_flat self h r :
  _group_by self = None -> snd (run_parser self h r) = OutList r.
Proof.
  intros Hg. unfold run_parser. destruct (h r); [reflexivity|].
  destruct (_sort_by self); rewrite Hg; reflexivity.
Qed.

(** C2 (as amended): after a successful [parse_sort_by], the parser holds
    the spec sequence as a dictionary: a property named more than once
    keeps its first place and its last direction, and a sequence of
    distinct properties is held as declared.  [run_parser] then leaves the
    list a permutation of its input, ordered lexicographically by the held
    specs (the first one is the primary key, a later one decides only where
    all earlier keys tie, each key ascending or descending on its own), and
    stable: records that tie on every key keep their input order.  With
    zero specs nothing changes. *)
Theorem run_parser_sort_order self0 sort_by self h obj_list :
  parse_sort_by self0 sort_by = (self, Ok tt) ->
  let specs := dict_update enum_eqb [] sort_by in
  let h' := snd (fst (run_parser self h obj_list)) in
  _sort_by self = specs /\
  (NoDup (map fst sort_by) -> specs = sort_by) /\
  Permutation (h obj_list) (h' obj_list) /\
  StronglySorted (lex_le (_prop_handler self) specs) (h' obj_list) /\
  (forall a,
     filter (tied (_prop_handler self) specs a) (h' obj_list)
     = filter (tied (_prop_handler self) specs a) (h obj_list)) /\
  (sort_by = [] -> forall r, h' r = h r) /\
  (_group_by self = None -> snd (run_parser self h obj_list) = OutList obj_list).
Proof.
  intros Hparse specs h'.
  apply parse_sort_by_ok in Hparse.
  assert (Hs : _sort_by self = specs) by (subst self; reflexivity).
  assert (Hh : h' obj_list
               = sort_passes (_prop_handler self) specs (h obj_list)).
  { unfold h'. rewrite run_parser_heap, Nat.eqb_refl. now rewrite Hs. }
  split; [exact Hs|]. split.
  { intros Hnd. apply (DictFacts.dict_update_nodup enum_eqb enum_eqb_eq).
    exact Hnd. }
  rewrite Hh.
  split; [apply sort_passes_perm|].
  split; [apply sort_passes_sorted|].
  split; [intros a; apply sort_passes_stable|].
  split; [|apply run_parser_flat].
  intros -> r. unfold h'. rewrite run_parser_heap, Hs.
  destruct (Nat.eqb_spec r obj_list) as [->|]; reflexivity.
Qed.

(** C9 (as amended): [run_parser] sorts the caller's list object in place
    when a sort spec is configured: afterwards the list holds the result
    of the sort passes, a permutation of what it held.  No other list
    object changes, and with no sort spec nothing changes at all. *)
Theorem run_parser_caller_list self h obj_list :
  let h' := snd (fst (run_parser self h obj_list)) in
  h' obj_list = sort_passes (_prop_handler self) (_sort_by self) (h obj_list) /\
  Permutation (h obj_list) (h' obj_list) /\
  (forall r, r <> obj_list -> h' r = h r) /\
  (_sort_by self = [] -> forall r, h' r = h r).
Proof.
  intros h'.
  assert (Hh : h' obj_list
               = sort_passes (_prop_handler self) (_sort_by self) (h obj_list)).
  { unfold h'. now rewrite run_parser_heap, Nat.eqb_refl. }
  split; [exact Hh|]. split; [rewrite Hh; apply sort_passes_perm|]. split.
  - intros r Hr. unfold h'. rewrite run_parser_heap.
    destruct (Nat.eqb_spec r obj_list); [contradiction|reflexivity].
  - intros Hs r. unfold h'. rewrite run_parser_heap, Hs.
    destruct (Nat.eqb_spec r obj_list) as [->|]; reflexivity.
Qed.

End Sorting.

Section Grouping.
Context {P : Type} {EnumP : Enum P} {Rec : Type}.
Implicit Types (self : QueryParser.t P Rec) (h : heap Rec) (l : list Rec).

Lemma existsb_eqb_In (v : Z) (vs : list Z) :
  existsb (Z.eqb v) vs = true <-> In v vs.
Proof.
  rewrite existsb_exists. split.
  - intros [x [Hin E]]. apply Z.eqb_eq in E. now subst.
  - intros Hin. exists v. split; [exact Hin|apply Z.eqb_refl].
Qed.

Lemma existsb_concat (f : Z -> bool) (ls : list (list Z)) :
  existsb f (List.concat ls) = existsb (existsb f) ls.
Proof.
  induction ls as [|x r IH]; [reflexivity|].
  simpl. now rewrite existsb_app, IH.
Qed.

(** The first occurrences: no value twice, exactly the values seen. *)
Lemma first_seen_In seen vals v :
  In v (first_seen seen vals) <-> In v vals /\ ~ In v seen.
Proof.
  revert seen. induction vals as [|x r IH]; intros seen; simpl; [tauto|].
  destruct (existsb (Z.eqb x) seen) eqn:E.
  - apply existsb_eqb_In in E. rewrite IH. split.
    + tauto.
    + intros [[->|H] Hn]; [contradiction|tauto].
  - assert (Hx : ~ In x seen).
    { intros Hin. apply existsb_eqb_In in Hin. congruence. }
    simpl. rewrite IH. rewrite in_app_iff. simpl.
    destruct (Z.eq_dec x v) as [->|N]; [tauto|]. tauto.
Qed.

Lemma first_seen_NoDup seen vals : NoDup (first_seen seen vals).
Proof.
  revert seen. induction vals as [|x r IH]; intros seen; simpl; [constructor|].
  destruct (existsb (Z.eqb x) seen); [apply IH|].
  constructor; [|apply IH].
  rewrite first_seen_In, in_app_iff. simpl. tauto.
Qed.

Lemma unique_vals_keys self g l (d : dict Z unit) :
  dict_keys
    (fold_left
       (fun d obj => dict_set Z.eqb d (group_val self g obj) tt) l d)
  = dict_keys d ++ first_seen (dict_keys d) (map (group_val self g) l).
Proof.
  revert d. induction l as [|x r IH]; intros d; simpl.
  - now rewrite app_nil_r.
  - rewrite IH. destruct (existsb (Z.eqb (group_val self g x)) (dict_keys d)) eqn:E.
    + apply existsb_eqb_In in E.
      now rewrite (DictFacts.dict_set_keys_present Z.eqb Z.eqb_eq).
    + assert (Hx : ~ In (group_val self g x) (dict_keys d)).
      { intros Hin. apply existsb_eqb_In in Hin. congruence. }
      rewrite (DictFacts.dict_set_fresh Z.eqb Z.eqb_eq) by exact Hx.
      unfold dict_keys. rewrite map_app. simpl. now rewrite <- app_assoc.
Qed.

Lemma unique_vals_first_seen self g l :
  unique_vals self l g = first_seen [] (map (group_val self g) l).
Proof. unfold unique_vals. apply (unique_vals_keys self g l []). Qed.

Lemma group_name_inj (g : P) v w : group_name g v = group_name g w -> v = w.
Proof.
  unfold group_name. intros H.
  apply StringFacts.append_inj_l, StringFacts.append_inj_l in H.
  now apply StringFacts.str_int_inj.
Qed.

Lemma group_name_not_ungrouped (g : P) v : group_name g v <> ungrouped.
Proof.
  unfold group_name. intros H.
  pose proof (StringFacts.has_infix_append (name g) " with value " (str_int v)) as E.
  rewrite H in E. discriminate E.
Qed.

Lemma group_names_NoDup (g : P) vals :
  NoDup vals -> NoDup (map (group_name g) vals).
Proof.
  induction 1 as [|v r Hn Hnd IH]; simpl; constructor; [|exact IH].
  rewrite in_map_iff. intros [w [E Hw]].
  apply group_name_inj in E. now subst.
Qed.

(** One predicate per first-seen value, under the value's name. *)
Lemma build_unique_val_groups_eq self l g :
  _build_unique_val_groups self l g
  = map (fun v => (group_name g v, fun obj => group_val self g obj =? v))
      (first_seen [] (map (group_val self g) l)).
Proof.
  unfold _build_unique_val_groups. rewrite unique_vals_first_seen.
  rewrite (DictFacts.fold_dict_set_fresh String.eqb String.eqb_eq
             (group_name g) (fun v obj => group_val self g obj =? v)).
  - reflexivity.
  - simpl. apply group_names_NoDup, first_seen_NoDup.
Qed.

(** What [run_parser] returns on a list that is not empty when a group
    property is set. *)
Lemma run_parser_groups self h r g :
  h r <> [] -> _group_by self = Some g ->
  let records := sort_passes (_prop_handler self) (_sort_by self) (h r) in
  snd (run_parser self h r)
  = OutGroups
      (_run_group_by records
         match _group_mappings self with
         | [] => _build_unique_val_groups self records g
         | _ :: _ => _group_mappings self
         end).
Proof.
  intros Hne Hg records. unfold run_parser.
  destruct (h r) as [|x l] eqn:Hr; [contradiction|].
  destruct (_sort_by self) as [|s specs] eqn:Hs.
  - rewrite Hg. subst records. unfold sort_passes. simpl. rewrite Hr.
    destruct (_group_mappings self) eqn:Hm; simpl; rewrite ?Hm; reflexivity.
  - pose proof (run_sort_heap self h r (s :: specs) r) as Hh.
    rewrite Nat.eqb_refl, Hr in Hh. fold records in Hh.
    destruct (_run_sort self h r (s :: specs)) as [h1 r1] eqn:E.
    assert (r1 = r) by (unfold _run_sort in E; now inversion E). subst r1.
    simpl in Hh. rewrite Hg, Hh.
    destruct (_group_mappings self) eqn:Hm; simpl; rewrite ?Hm; reflexivity.
Qed.

Lemma run_parser_empty self h r :
  h r = [] -> run_parser self h r = (self, h, OutList r).
Proof. intros Hr. unfold run_parser. now rewrite Hr. Qed.

(** What a successful [parse_group_by] records. *)
Lemma parse_group_by_no_ranges self0 g include_missing self :
  parse_group_by self0 g None include_missing = (self, Ok tt) ->
  self = set_group_by self0 (Some g).
Proof.
  unfold parse_group_by. destruct (_check_prop_valid self0 g); [|discriminate].
  now inversion 1.
Qed.

Lemma parse_group_by_ranges self0 g ranges include_missing self :
  ranges <> [] -> _group_mappings self0 = [] ->
  NoDup (dict_keys ranges) -> ~ In ungrouped (dict_keys ranges) ->
  parse_group_by self0 g (Some ranges) include_missing = (self, Ok tt) ->
  let self1 := set_group_by self0 (Some g) in
  self = set_group_mappings self1
           (map (fun nl => (fst nl, in_range self1 g (snd nl))) ranges
            ++ if include_missing
               then [(ungrouped, not_in_any self1 g (List.concat (map snd ranges)))]
               else []).
Proof.
  intros Hne Hm Hnd Hun H self1. unfold parse_group_by in H.
  destruct (_check_prop_valid self0 g); [|discriminate].
  destruct ranges as [|nl ranges]; [contradiction|].
  injection H as H. subst self. fold self1. f_equal.
  set (f := fun (m : dict string (Rec -> bool)) (x : string * list Z) =>
              dict_set String.eqb m (fst x) (in_range self1 g (snd x))).
  change (fold_left f ranges
            (dict_set String.eqb (_group_mappings self0) (fst nl)
               (in_range self1 g (snd nl))))
    with (fold_left f (nl :: ranges) (_group_mappings self0)).
  change (snd nl ++ List.concat (map snd ranges))
    with (List.concat (map snd (nl :: ranges))).
  generalize dependent (nl :: ranges). clear nl ranges. intros ranges _ Hnd Hun.
  unfold f.
  rewrite (DictFacts.fold_dict_set_fresh String.eqb String.eqb_eq
             fst (fun nl => in_range self1 g (snd nl)))
    by (rewrite Hm; exact Hnd).
  rewrite Hm. change ([] ++ ?x) with x.
  destruct include_missing; [|now rewrite app_nil_r].
  apply (DictFacts.dict_set_fresh String.eqb String.eqb_eq).
  unfold dict_keys. rewrite map_map. exact Hun.
Qed.

Lemma existsb_map_snd (f : list Z -> bool) (ranges : dict string (list Z)) :
  existsb f (map snd ranges) = existsb (fun nl => f (snd nl)) ranges.
Proof. induction ranges as [|x r IH]; simpl; [reflexivity|now rewrite IH]. Qed.

(** C6 (as amended): on a parser that holds no group predicates yet, for
    ranges that are not empty and do not use the name "ungrouped results",
    and for every record list that is not empty, [parse_group_by] with
    [include_missing] set followed by [run_parser] yields, in the order of
    the ranges, one group per range holding exactly the records (of the
    list as the sort passes left it) whose value is in the range's list,
    and then the group "ungrouped results" holding exactly the records
    whose value is in no range.  Nothing is deduplicated: every group is
    filtered from the whole list. *)
Theorem group_by_ranges self0 g ranges self h obj_list :
  _group_mappings self0 = [] ->
  ranges <> [] -> NoDup (dict_keys ranges) -> ~ In ungrouped (dict_keys ranges) ->
  h obj_list <> [] ->
  parse_group_by self0 g (Some ranges) true = (self, Ok tt) ->
  let records := snd (fst (run_parser self h obj_list)) obj_list in
  let val := group_val self g in
  snd (run_parser self h obj_list)
  = OutGroups
      (map (fun nl =>
              (fst nl, filter (fun obj => existsb (Z.eqb (val obj)) (snd nl)) records))
         ranges
       ++ [(ungrouped,
            filter
              (fun obj =>
                 negb (existsb (fun nl => existsb (Z.eqb (val obj)) (snd nl)) ranges))
              records)])
  /\ Permutation (h obj_list) records.
Proof.
  intros Hm Hne Hnd Hun Hl Hparse records val.
  assert (Hrec : records
                 = sort_passes (_prop_handler self) (_sort_by self) (h obj_list)).
  { unfold records. now rewrite run_parser_heap, Nat.eqb_refl. }
  split; [|rewrite Hrec; apply sort_passes_perm].
  apply parse_group_by_ranges in Hparse; try assumption.
  rewrite (run_parser_groups self h obj_list g Hl) by (subst self; reflexivity).
  rewrite <- Hrec. f_equal.
  assert (Hmap : _group_mappings self
                 = map (fun nl => (fst nl, in_range self g (snd nl))) ranges
                   ++ [(ungrouped, not_in_any self g (List.concat (map snd ranges)))]).
  { subst self. reflexivity. }
  rewrite Hmap. clear Hmap Hparse.
  destruct ranges as [|nl ranges]; [contradiction|].
  change (map ?f (nl :: ranges) ++ ?x) with (f nl :: (map f ranges ++ x)).
  cbv iota. unfold _run_group_by.
  change (?a :: (map ?f ranges ++ ?x)) with (map f (nl :: ranges) ++ x).
  rewrite map_app, map_map. simpl map at 2. f_equal. f_equal. f_equal.
  apply filter_ext. intros obj. unfold not_in_any. f_equal.
  change (snd nl ++ List.concat (map snd ranges))
    with (List.concat (map snd (nl :: ranges))).
  rewrite existsb_concat. apply existsb_map_snd.
Qed.

(** Without stored predicates the groups are derived from the values. *)
Lemma run_parser_unique_values self h r g :
  h r <> [] -> _group_by self = Some g -> _group_mappings self = [] ->
  let records := snd (fst (run_parser self h r)) r in
  snd (run_parser self h r)
  = OutGroups
      (map (fun v => (group_name g v,
                      filter (fun obj => group_val self g obj =? v) records))
         (first_seen [] (map (group_val self g) records))).
Proof.
  intros Hl Hg Hm records.
  assert (Hrec : records
                 = sort_passes (_prop_handler self) (_sort_by self) (h r)).
  { unfold records. now rewrite run_parser_heap, Nat.eqb_refl. }
  rewrite (run_parser_groups self h r g Hl Hg).
  rewrite <- Hrec, Hm, build_unique_val_groups_eq.
  unfold _run_group_by. now rewrite map_map.
Qed.

(** C7 (as amended): on a parser that holds no group predicates (none
    recorded by an earlier [parse_group_by] with ranges, none stored by an
    earlier [run_parser]), after [parse_group_by] without ranges,
    [run_parser] on a list that is not empty yields exactly one group per
    distinct value of the property, in the order in which the values are
    first seen in the list as the sort passes left it; each group holds
    all records with its value, and is named by the name of the property,
    the text " with value " and the value in decimal, different values
    under different names. *)
Theorem group_by_unique_values self0 g include_missing self h obj_list :
  _group_mappings self0 = [] ->
  h obj_list <> [] ->
  parse_group_by self0 g None include_missing = (self, Ok tt) ->
  let records := snd (fst (run_parser self h obj_list)) obj_list in
  let val := fun obj => PropHandler.get_prop (_prop_handler self0) obj g in
  let vals := first_seen [] (map val records) in
  let group_of := fun v => (name g ++ " with value " ++ str_int v)%string in
  snd (run_parser self h obj_list)
  = OutGroups
      (map (fun v => (group_of v, filter (fun obj => val obj =? v) records))
         vals)
  /\ NoDup vals
  /\ (forall v, In v vals <-> exists obj, In obj (h obj_list) /\ val obj = v)
  /\ NoDup (map group_of vals)
  /\ (forall v w, group_of v = group_of w -> v = w)
  /\ records = sort_passes (_prop_handler self0) (_sort_by self0) (h obj_list).
Proof.
  intros Hm Hl Hparse records val vals group_of.
  apply parse_group_by_no_ranges in Hparse.
  assert (Hrec : records
                 = sort_passes (_prop_handler self0) (_sort_by self0) (h obj_list)).
  { unfold records. rewrite run_parser_heap, Nat.eqb_refl.
    subst self. reflexivity. }
  assert (Hmap : _group_mappings self = []) by (subst self; exact Hm).
  split.
  { rewrite (run_parser_unique_values self h obj_list g Hl)
      by (subst self; (reflexivity || exact Hm)).
    subst self. reflexivity. }
  split; [apply first_seen_NoDup|].
  split; [|split; [apply group_names_NoDup, first_seen_NoDup
                  |split; [apply group_name_inj|exact Hrec]]].
  intros v. unfold vals. rewrite first_seen_In, in_map_iff. split.
  - intros [[obj [E Hin]] _]. exists obj. split; [|exact E].
    eapply Permutation_in; [|exact Hin].
    rewrite Hrec. symmetry. apply sort_passes_perm.
  - intros [obj [Hin E]]. split; [|tauto]. exists obj. split; [exact E|].
    eapply Permutation_in; [|exact Hin].
    rewrite Hrec. apply sort_passes_perm.
Qed.

(** C10 (as amended): [parse_group_by] without ranges records no group
    predicate of its own, whatever [include_missing] is, and leaves the
    predicates the parser holds in place: the flag makes no difference to
    the call.  When the call succeeds on a parser that held no group
    predicates, the property is set; a later [run_parser] returns the list
    itself when it is empty, and otherwise one group per distinct value,
    in first-seen order, under the name made of the property name, the
    text " with value " and the value, none of which is "ungrouped
    results". *)
Theorem group_by_no_ranges_ignores_missing self0 g h obj_list :
  let configured := parse_group_by self0 g None true in
  let self := fst configured in
  _group_mappings self = _group_mappings self0 /\
  parse_group_by self0 g None false = configured /\
  (snd configured = Ok tt -> _group_mappings self0 = [] ->
   let records := snd (fst (run_parser self h obj_list)) obj_list in
   let val := fun obj => PropHandler.get_prop (_prop_handler self0) obj g in
   _group_by self = Some g /\
   (h obj_list = [] -> snd (run_parser self h obj_list) = OutList obj_list) /\
   (h obj_list <> [] ->
    exists groups,
      snd (run_parser self h obj_list) = OutGroups groups
      /\ groups
         = map (fun v => ((name g ++ " with value " ++ str_int v)%string,
                          filter (fun obj => val obj =? v) records))
             (first_seen [] (map val records))
      /\ ~ In "ungrouped results"%string (dict_keys groups))).
Proof.
  intros configured self.
  assert (Hcases : configured = (set_group_by self0 (Some g), Ok tt)
                   \/ exists e, configured = (self0, Raise e)).
  { unfold configured, parse_group_by.
    destruct (_check_prop_valid self0 g); [now left|right; eauto]. }
  split; [|split; [reflexivity|]].
  - unfold self. destruct Hcases as [->|[e ->]]; reflexivity.
  - intros Hok Hm records val.
    destruct Hcases as [Hc|[e Hc]]; [|rewrite Hc in Hok; discriminate].
    assert (Hself : self = set_group_by self0 (Some g))
      by (unfold self; now rewrite Hc).
    split; [rewrite Hself; reflexivity|split].
    + intros Hl. now rewrite run_parser_empty by exact Hl.
    + intros Hne. eexists. split; [|split; [reflexivity|]].
      * rewrite (run_parser_unique_values self h obj_list g Hne)
          by (rewrite Hself; (reflexivity || exact Hm)).
        unfold records, val. rewrite Hself. reflexivity.
      * unfold dict_keys. rewrite map_map. simpl. rewrite in_map_iff.
        intros [v [E _]]. now apply (group_name_not_ungrouped g v).
Qed.

End Grouping.

(** Runs on server records. *)
Import Fixture.

(** Ranges low = [1, 2] and high = [3, 4] with [include_missing] on
    flavors 1 to 5. *)
Example group_low_high :
  let self := fst (parse_group_by parser ServerProperties.FLAVOR_ID
                     (Some low_high) true) in
  snd (run_parser self (heap_of five_servers) 0%nat)
  = OutGroups
      [("low", [server 1 0; server 2 0]);
       ("high", [server 3 0; server 4 0]);
       ("ungrouped results", [server 5 0])].
Proof. vm_compute. reflexivity. Qed.

(** Overlapping ranges: a record is in every group that matches. *)
Example group_overlap :
  let self := fst (parse_group_by parser ServerProperties.FLAVOR_ID
                     (Some [("a", [1; 2]); ("b", [2; 3])]) false) in
  snd (run_parser self (heap_of five_servers) 0%nat)
  = OutGroups
      [("a", [server 1 0; server 2 0]); ("b", [server 2 0; server 3 0])].
Proof. vm_compute. reflexivity. Qed.

(** Flavors 2, 1, 2, 3 without ranges: groups 2, 1, 3 in that order. *)
Example group_first_seen :
  let self := fst (parse_group_by parser ServerProperties.FLAVOR_ID None false) in
  snd (run_parser self (heap_of four_servers) 0%nat)
  = OutGroups
      [("FLAVOR_ID with value 2", [server 2 10; server 2 12]);
       ("FLAVOR_ID with value 1", [server 1 11]);
       ("FLAVOR_ID with value 3", [server 3 13])].
Proof. vm_compute. reflexivity. Qed.

Lemma group_by_ranges_witness :
  let self := fst (parse_group_by parser ServerProperties.FLAVOR_ID
                     (Some low_high) true) in
  let h := heap_of five_servers in
  let records := snd (fst (run_parser self h 0%nat)) 0%nat in
  let val := group_val self ServerProperties.FLAVOR_ID in
  snd (run_parser self h 0%nat)
  = OutGroups
      (map (fun nl =>
              (fst nl, filter (fun obj => existsb (Z.eqb (val obj)) (snd nl)) records))
         low_high
       ++ [(ungrouped,
            filter
              (fun obj =>
                 negb (existsb (fun nl => existsb (Z.eqb (val obj)) (snd nl)) low_high))
              records)])
  /\ Permutation (h 0%nat) records.
Proof.
  apply (group_by_ranges parser ServerProperties.FLAVOR_ID low_high).
  - reflexivity.
  - discriminate.
  - repeat constructor; simpl; intuition discriminate.
  - simpl; intuition discriminate.
  - discriminate.
  - reflexivity.
Defined.

Lemma group_by_unique_values_witness :
  let self := fst (parse_group_by parser ServerProperties.FLAVOR_ID None false) in
  let h := heap_of four_servers in
  let records := snd (fst (run_parser self h 0%nat)) 0%nat in
  let val := fun obj =>
    PropHandler.get_prop (_prop_handler parser) obj ServerProperties.FLAVOR_ID in
  let vals := first_seen [] (map val records) in
  let group_of := fun v => ("FLAVOR_ID" ++ " with value " ++ str_int v)%string in
  map val (h 0%nat) = [2; 1; 2; 3] /\
  vals = [2; 1; 3] /\
  map (fun v => (group_of v, filter (fun obj => val obj =? v) records)) vals
  = [("FLAVOR_ID with value 2"%string, [server 2 10; server 2 12]);
     ("FLAVOR_ID with value 1"%string, [server 1 11]);
     ("FLAVOR_ID with value 3"%string, [server 3 13])] /\
  snd (run_parser self h 0%nat)
  = OutGroups
      (map (fun v => (group_of v, filter (fun obj => val obj =? v) records))
         vals).
Proof.
  split; [reflexivity|split; [reflexivity|split; [reflexivity|]]].
  assert (Hne : heap_of four_servers 0%nat <> []) by discriminate.
  exact (proj1 (group_by_unique_values parser ServerProperties.FLAVOR_ID false
                  (fst (parse_group_by parser ServerProperties.FLAVOR_ID None false))
                  (heap_of four_servers) 0%nat eq_refl Hne eq_refl)).
Defined.

(** C7 as stated fails on a parser that has run before: [run_parser]
    stores the groups it derives, so a second run, on flavors 1 to 5,
    reuses the groups derived from the flavors 2, 1, 2, 3 of the first
    run, and the records with flavors 4 and 5 are in no group. *)
Lemma group_by_stale_groups_counterexample :
  let self := fst (parse_group_by parser ServerProperties.FLAVOR_ID None false) in
  let first_run := run_parser self (heap_of four_servers) 0%nat in
  let self' := fst (fst first_run) in
  snd (parse_group_by parser ServerProperties.FLAVOR_ID None false) = Ok tt /\
  _group_mappings self = [] /\
  _group_by self' = Some ServerProperties.FLAVOR_ID /\
  five_servers = [server 1 0; server 2 0; server 3 0; server 4 0; server 5 0] /\
  snd (run_parser self' (heap_of five_servers) 0%nat)
  = OutGroups
      [("FLAVOR_ID with value 2"%string, [server 2 0]);
       ("FLAVOR_ID with value 1"%string, [server 1 0]);
       ("FLAVOR_ID with value 3"%string, [server 3 0])].
Proof. repeat split. Qed.

Lemma group_by_no_ranges_witness :
  let self := fst (parse_group_by parser ServerProperties.FLAVOR_ID None true) in
  let h := heap_of four_servers in
  let records := snd (fst (run_parser self h 0%nat)) 0%nat in
  let val := fun obj =>
    PropHandler.get_prop (_prop_handler parser) obj ServerProperties.FLAVOR_ID in
  (_group_mappings self = [] /\
   parse_group_by parser ServerProperties.FLAVOR_ID None false
   = parse_group_by parser ServerProperties.FLAVOR_ID None true) /\
  map (fun v => (("FLAVOR_ID" ++ " with value " ++ str_int v)%string,
                 filter (fun obj => val obj =? v) records))
    (first_seen [] (map val records))
  = [("FLAVOR_ID with value 2"%string, [server 2 10; server 2 12]);
     ("FLAVOR_ID with value 1"%string, [server 1 11]);
     ("FLAVOR_ID with value 3"%string, [server 3 13])] /\
  exists groups,
    snd (run_parser self h 0%nat) = OutGroups groups
    /\ groups
       = map (fun v => (("FLAVOR_ID" ++ " with value " ++ str_int v)%string,
                        filter (fun obj => val obj =? v) records))
           (first_seen [] (map val records))
    /\ ~ In "ungrouped results"%string (dict_keys groups).
Proof.
  assert (Hne : heap_of four_servers 0%nat <> []) by discriminate.
  destruct (group_by_no_ranges_ignores_missing parser ServerProperties.FLAVOR_ID
              (heap_of four_servers) 0%nat) as [Hkept [Hsame Hrun]].
  split; [split; [exact Hkept|exact Hsame]|split; [reflexivity|]].
  exact (proj2 (proj2 (Hrun eq_refl eq_refl)) Hne).
Defined.

(** C10 as stated fails on a parser that holds predicates of an earlier
    call: [parse_group_by] never clears them, so after ranges with
    [include_missing], a call without ranges leaves [run_parser] with the
    old groups, "ungrouped results" among them. *)
Lemma group_by_kept_ranges_counterexample :
  let self1 := fst (parse_group_by parser ServerProperties.FLAVOR_ID
                      (Some low_high) true) in
  let configured := parse_group_by self1 ServerProperties.FLAVOR_ID None true in
  snd configured = Ok tt /\
  _group_mappings (fst configured) = _group_mappings self1 /\
  snd (run_parser (fst configured) (heap_of five_servers) 0%nat)
  = OutGroups
      [("low"%string, [server 1 0; server 2 0]);
       ("high"%string, [server 3 0; server 4 0]);
       ("ungrouped results"%string, [server 5 0])].
Proof. repeat split. Qed.

(** With [include_missing] and no ranges on flavors 2, 1, 2, 3: the same
    three groups, and no "ungrouped results". *)
Example group_no_ranges_with_missing :
  let self := fst (parse_group_by parser ServerProperties.FLAVOR_ID None true) in
  match snd (run_parser self (heap_of four_servers) 0%nat) with
  | OutGroups groups =>
      dict_keys groups
      = ["FLAVOR_ID with value 2"; "FLAVOR_ID with value 1";
         "FLAVOR_ID with value 3"]%string
  | OutList _ => False
  end.
Proof. vm_compute. reflexivity. Qed.

(** C6 as stated fails on the empty list: no group is produced at all,
    the empty list itself is returned. *)
Lemma group_by_ranges_empty_counterexample :
  let self := fst (parse_group_by parser ServerProperties.FLAVOR_ID
                     (Some low_high) true) in
  snd (parse_group_by parser ServerProperties.FLAVOR_ID (Some low_high) true)
  = Ok tt /\
  dict_keys (_group_mappings self) = ["low"; "high"; "ungrouped results"] /\
  snd (run_parser self (heap_of []) 0%nat) = OutList 0%nat.
Proof. repeat split. Qed.

(** The spec sequence [(A, False), (B, True)]: ascending flavor, ties by
    descending image, equal records in input order. *)
Example sort_two_keys :
  let self := fst (parse_sort_by parser
                     [(ServerProperties.FLAVOR_ID, false);
                      (ServerProperties.IMAGE_ID, true)]) in
  let h := heap_of [server 2 1; server 1 1; server 2 5; server 1 7; server 1 1] in
  snd (fst (run_parser self h 0%nat)) 0%nat
  = [server 1 7; server 1 1; server 1 1; server 2 5; server 2 1].
Proof. vm_compute. reflexivity. Qed.

Lemma run_parser_sort_order_witness :
  let sort_by := [(ServerProperties.FLAVOR_ID, false);
                  (ServerProperties.IMAGE_ID, true)] in
  let self := set_sort_by parser sort_by in
  let h := heap_of [server 2 1; server 1 1; server 2 5] in
  parse_sort_by parser sort_by = (self, Ok tt) /\
  StronglySorted (lex_le prop_handler sort_by)
    (snd (fst (run_parser self h 0%nat)) 0%nat).
Proof.
  split; [reflexivity|].
  exact (proj1 (proj2 (proj2 (proj2
    (run_parser_sort_order parser
       [(ServerProperties.FLAVOR_ID, false); (ServerProperties.IMAGE_ID, true)]
       (set_sort_by parser
          [(ServerProperties.FLAVOR_ID, false); (ServerProperties.IMAGE_ID, true)])
       (heap_of [server 2 1; server 1 1; server 2 5]) 0%nat eq_refl))))).
Defined.

(** C2 as stated fails when a property is named twice: the first-declared
    spec is ascending [FLAVOR_ID], yet the list comes out descending. *)
Lemma sort_repeated_property_counterexample :
  let sort_by := [(ServerProperties.FLAVOR_ID, false);
                  (ServerProperties.FLAVOR_ID, true)] in
  let self := fst (parse_sort_by parser sort_by) in
  let h := heap_of [server 1 0; server 2 0] in
  snd (parse_sort_by parser sort_by) = Ok tt /\
  _sort_by self = [(ServerProperties.FLAVOR_ID, true)] /\
  snd (fst (run_parser self h 0%nat)) 0%nat = [server 2 0; server 1 0] /\
  ~ StronglySorted (lex_le prop_handler sort_by) [server 2 0; server 1 0].
Proof.
  repeat split; try reflexivity.
  intros H. inversion H as [|? ? _ Hall]; subst.
  inversion Hall as [|? ? Hle _]; subst.
  vm_compute in Hle. destruct Hle as [Hlt|[Heq _]]; discriminate.
Qed.

(** C9 as stated fails when a sort spec is set: the caller's list object
    is reordered. *)
Lemma run_parser_mutates_counterexample :
  let self := fst (parse_sort_by parser [(ServerProperties.FLAVOR_ID, false)]) in
  let h := heap_of [server 2 0; server 1 0] in
  h 0%nat = [server 2 0; server 1 0] /\
  snd (fst (run_parser self h 0%nat)) 0%nat = [server 1 0; server 2 0] /\
  snd (run_parser self h 0%nat) = OutList 0%nat.
Proof. repeat split. Qed.

End ParserFacts.

(** ** [ServerProperties.get_prop_func] *)
Module PropertyFacts.
Import Py ServerProperties.
Local Open Scope list_scope.

(** C8: every member of [ServerProperties] has an accessor in the table
    (exactly one: no member is listed twice) and [get_prop_func] returns
    it; a member of another enumeration raises
    [QueryPropertyMappingError]; an object that is no [Enum] member at all
    raises [TypeError], out of the membership test. *)
Theorem get_prop_func_exhaustive :
  (forall (Q : Type) (EnumQ : Enum Q) (p : ServerProperties.t),
     In p members /\
     exists f, get_prop_func_any (Q := Q) (EnumMember (inl p)) = Ok f
               /\ dict_get eqb mapping p = Some f) /\
  NoDup (dict_keys mapping) /\
  (forall (Q : Type) (EnumQ : Enum Q) (q : Q),
     get_prop_func_any (EnumMember (inr q))
     = Raise (QueryPropertyMappingError not_supported_msg)) /\
  (forall (Q : Type) (EnumQ : Enum Q) (obj : pyval),
     get_prop_func_any (Q := Q) (NotEnum obj) = Raise TypeError).
Proof.
  split; [|split; [|split]].
  - intros Q EnumQ p. split.
    + destruct p; simpl; tauto.
    + destruct p; eexists; split; reflexivity.
  - unfold dict_keys. simpl.
    repeat (constructor; [simpl; intuition discriminate|]). constructor.
  - intros Q EnumQ q. reflexivity.
  - intros Q EnumQ obj. reflexivity.
Qed.

(** C8 as stated fails for an input that is no [Enum] member: the integer
    1, the text of a member's name and [None] all raise [TypeError], not
    [QueryPropertyMappingError]. *)
Lemma get_prop_func_not_enum_counterexample :
  get_prop_func_any (Q := Empty_set) (NotEnum (PyInt 1)) = Raise TypeError /\
  get_prop_func_any (Q := Empty_set) (NotEnum (PyStr "USER_ID")) = Raise TypeError /\
  get_prop_func_any (Q := Empty_set) (NotEnum PyNone) = Raise TypeError /\
  Raise (A := pyval -> result pyval) TypeError
  <> Raise (QueryPropertyMappingError not_supported_msg).
Proof. repeat split. discriminate. Qed.

(** The accessors subscript the record: a mapping without the key raises
    [KeyError], never [AttributeError]. *)
Lemma accessor_user_id_missing d :
  dict_get String.eqb d "user_id" = None ->
  forall f, dict_get eqb mapping USER_ID = Some f ->
  f (PyDict d) = Raise (KeyError "user_id").
Proof.
  intros Hd f Hf. injection Hf as <-. unfold subscript. now rewrite Hd.
Qed.

End PropertyFacts.

(** ** The client-side handler *)
Module HandlerFacts.
Import Py ClientSideHandler.
Local Open Scope list_scope.

(** The loop stops at the first offending parameter. *)
Lemma check_parameters_pass p rest kw :
  offending kw p = false ->
  check_parameters (p :: rest) kw = check_parameters rest kw.
Proof.
  unfold offending. simpl.
  destruct (kind_eqb (kind p) POSITIONAL_OR_KEYWORD); [|reflexivity].
  simpl.
  destruct (dict_get String.eqb kw (param_name p)) as [v|].
  - destruct (annotation p) as [| |c]; try reflexivity.
    destruct (isinstance v c); [reflexivity|discriminate].
  - destruct (default p); [reflexivity|discriminate].
Qed.

Lemma check_parameters_stop p rest kw :
  offending kw p = true ->
  check_parameters (p :: rest) kw
  = Some match dict_get String.eqb kw (param_name p), annotation p with
         | Some v, AnnClass c => type_reason p c v
         | _, _ => missing_reason p
         end.
Proof.
  unfold offending. simpl.
  destruct (kind_eqb (kind p) POSITIONAL_OR_KEYWORD); [|discriminate].
  simpl.
  destruct (dict_get String.eqb kw (param_name p)) as [v|].
  - destruct (annotation p) as [| |c]; try discriminate.
    destruct (isinstance v c); [discriminate|reflexivity].
  - destruct (default p); [discriminate|reflexivity].
Qed.

Lemma check_parameters_none parameters kw :
  check_parameters parameters kw = None
  <-> Forall (fun p => offending kw p = false) parameters.
Proof.
  induction parameters as [|p r IH].
  - split; [constructor|reflexivity].
  - destruct (offending kw p) eqn:E.
    + rewrite check_parameters_stop by exact E.
      split; [discriminate|]. inversion 1. congruence.
    + rewrite check_parameters_pass by exact E. rewrite IH.
      split; [now constructor|now inversion 1].
Qed.

Lemma check_parameters_skip before rest kw :
  Forall (fun p => offending kw p = false) before ->
  check_parameters (before ++ rest) kw = check_parameters rest kw.
Proof.
  induction 1 as [|p r Hp _ IH]; [reflexivity|].
  rewrite <- app_comm_cons, check_parameters_pass by exact Hp. exact IH.
Qed.

Lemma check_parameters_some parameters kw :
  Exists (fun p => offending kw p = true) parameters ->
  exists reason, check_parameters parameters kw = Some reason.
Proof.
  intros H. destruct (check_parameters parameters kw) eqn:E; [eauto|].
  apply check_parameters_none in E. rewrite Forall_forall in E.
  apply Exists_exists in H. destruct H as [p [Hin Hp]].
  rewrite (E p Hin) in Hp. discriminate.
Qed.

Lemma unexpected_vals_In parameters kw k :
  In k (unexpected_vals parameters kw)
  <-> In k (dict_keys kw) /\ forall p, In p parameters -> param_name p <> k.
Proof.
  unfold unexpected_vals. rewrite filter_In, negb_true_iff.
  split; intros [Hk H]; split; try exact Hk.
  - intros p Hp E. assert (X : existsb (fun p => (param_name p =? k)%string) parameters = true).
    { apply existsb_exists. exists p. split; [exact Hp|now apply String.eqb_eq]. }
    congruence.
  - destruct (existsb _ parameters) eqn:E; [|reflexivity].
    apply existsb_exists in E. destruct E as [p [Hp E]].
    apply String.eqb_eq in E. now apply H in Hp.
Qed.

(** A record whose property cannot be fetched with [AttributeError] is
    excluded without a call of the filter function: the result is the
    same for every filter function, also one that always raises. *)
Lemma wrapper_attribute_error item func prop_func kwargs :
  prop_func item = Raise AttributeError ->
  _filter_func_wrapper item func prop_func kwargs = Ok false.
Proof. unfold _filter_func_wrapper. now intros ->. Qed.

(** Any other exception of the accessor leaves the wrapper. *)
Lemma wrapper_other_error item func prop_func kwargs e :
  prop_func item = Raise e -> e <> AttributeError ->
  _filter_func_wrapper item func prop_func kwargs = Raise e.
Proof.
  unfold _filter_func_wrapper. intros -> He.
  destruct e; try reflexivity. contradiction.
Qed.

Section GetFilterFunc.
Context {Preset P : Type} {EnumPreset : Enum Preset} {EnumP : Enum P}.
Implicit Types (h : ClientSideHandler.t Preset P) (func : FilterFunc).
Implicit Types (kw : dict string pyval).

Lemma check_filter_func_eq func kw :
  _check_filter_func func (Some kw)
  = Ok match check_parameters (tl (signature func)) kw with
       | Some reason => (false, reason)
       | None =>
           if negb (has_kind VAR_POSITIONAL (tl (signature func)))
              && negb (has_kind VAR_KEYWORD (tl (signature func)))
           then
             match unexpected_vals (tl (signature func)) kw with
             | [] => (true, "")
             | (_ :: _) as vals =>
                 (false, "unexpected arguments: '" ++ set_repr vals ++ "'")
             end
           else (true, "")
       end%string.
Proof.
  unfold _check_filter_func.
  destruct (check_parameters (tl (signature func)) kw); [reflexivity|].
  destruct (negb _ && negb _); [|reflexivity].
  destruct (unexpected_vals _ kw); reflexivity.
Qed.

Lemma get_filter_func_invalid h preset prop prop_func func kwargs reason :
  check_supported h preset prop = true ->
  dict_get enum_eqb (_filter_functions h) preset = Some func ->
  _check_filter_func func kwargs = Ok (false, reason) ->
  get_filter_func h preset prop prop_func kwargs
  = Raise (QueryPresetMappingError (argument_error_msg preset prop reason)).
Proof.
  intros Hs Hf Hc. unfold get_filter_func. now rewrite Hs, Hf, Hc.
Qed.

Lemma get_filter_func_valid h preset prop prop_func func kwargs reason :
  check_supported h preset prop = true ->
  dict_get enum_eqb (_filter_functions h) preset = Some func ->
  _check_filter_func func kwargs = Ok (true, reason) ->
  get_filter_func h preset prop prop_func kwargs
  = Ok (fun resource => _filter_func_wrapper resource func prop_func kwargs).
Proof.
  intros Hs Hf Hc. unfold get_filter_func. now rewrite Hs, Hf, Hc.
Qed.

(** Every predicate of [get_filter_func] is the wrapper around the
    handler's function for the preset. *)
Lemma get_filter_func_ok h preset prop prop_func kwargs pred :
  get_filter_func h preset prop prop_func kwargs = Ok pred ->
  exists func,
    dict_get enum_eqb (_filter_functions h) preset = Some func /\
    pred = fun resource => _filter_func_wrapper resource func prop_func kwargs.
Proof.
  unfold get_filter_func.
  destruct (check_supported h preset prop); [|discriminate].
  destruct (dict_get enum_eqb (_filter_functions h) preset) as [func|];
    [|discriminate].
  destruct (_check_filter_func func kwargs) as [[[] reason]|]; simpl;
    try discriminate.
  intros H. injection H as <-. now exists func.
Qed.

(** What a predicate does on a record whose accessor fails: for every
    preset alike, [AttributeError] excludes the record and any other
    exception is raised by the predicate. *)
Lemma predicate_on_failed_accessor h preset prop prop_func kwargs pred item e :
  get_filter_func h preset prop prop_func kwargs = Ok pred ->
  prop_func item = Raise e ->
  pred item = match e with AttributeError => Ok false | _ => Raise e end.
Proof.
  intros Hp He. apply get_filter_func_ok in Hp. destruct Hp as [func [_ ->]].
  unfold _filter_func_wrapper. rewrite He. now destruct e.
Qed.

(** C5 (as amended): [get_filter_func] validates the keyword arguments
    against the positional-or-keyword parameters after the first one, in
    declaration order, and the first offending parameter decides the
    error: absent without a default, it raises [QueryPresetMappingError]
    naming the parameter (whether or not the function takes arbitrary
    keyword arguments); present with a value that is no instance of the
    class it is annotated with, it raises [QueryPresetMappingError] naming
    the parameter.  Any offending parameter makes the call raise
    [QueryPresetMappingError]; so does, for a function with neither
    arbitrary positional nor arbitrary keyword arguments, any key that is
    no declared parameter.  Otherwise the predicate is returned. *)
Theorem get_filter_func_validation h preset prop prop_func func kw :
  check_supported h preset prop = true ->
  dict_get enum_eqb (_filter_functions h) preset = Some func ->
  let parameters := tl (signature func) in
  let outcome := get_filter_func h preset prop prop_func (Some kw) in
  let error reason :=
    Raise (QueryPresetMappingError (argument_error_msg preset prop reason)) in
  (forall before p after,
     parameters = before ++ p :: after ->
     Forall (fun q => offending kw q = false) before ->
     kind p = POSITIONAL_OR_KEYWORD ->
     (dict_get String.eqb kw (param_name p) = None -> default p = None ->
      outcome = error (missing_reason p)) /\
     (forall v c,
        dict_get String.eqb kw (param_name p) = Some v ->
        annotation p = AnnClass c -> isinstance v c = false ->
        outcome = error (type_reason p c v))) /\
  (Exists (fun q => offending kw q = true) parameters ->
   exists reason, outcome = error reason) /\
  (has_kind VAR_POSITIONAL parameters = false ->
   has_kind VAR_KEYWORD parameters = false ->
   forall k, In k (dict_keys kw) ->
     (forall p, In p parameters -> param_name p <> k) ->
     exists reason, outcome = error reason) /\
  (Forall (fun q => offending kw q = false) parameters ->
   has_kind VAR_POSITIONAL parameters = true
   \/ has_kind VAR_KEYWORD parameters = true
   \/ unexpected_vals parameters kw = [] ->
   outcome
   = Ok (fun resource => _filter_func_wrapper resource func prop_func (Some kw))).
Proof.
  intros Hs Hf parameters outcome error.
  assert (Hbad : forall reason,
            _check_filter_func func (Some kw) = Ok (false, reason) ->
            outcome = error reason).
  { intros reason. apply get_filter_func_invalid; assumption. }
  assert (Hfirst : forall before p after,
            parameters = before ++ p :: after ->
            Forall (fun q => offending kw q = false) before ->
            offending kw p = true ->
            _check_filter_func func (Some kw)
            = Ok (false,
                  match dict_get String.eqb kw (param_name p), annotation p with
                  | Some v, AnnClass c => type_reason p c v
                  | _, _ => missing_reason p
                  end)).
  { intros before p after Hsplit Hbefore Hp. rewrite check_filter_func_eq.
    fold parameters. rewrite Hsplit, check_parameters_skip by exact Hbefore.
    now rewrite check_parameters_stop by exact Hp. }
  split; [|split; [|split]].
  - intros before p after Hsplit Hbefore Hk. split.
    + intros Hget Hdef. apply Hbad.
      rewrite (Hfirst before p after Hsplit Hbefore).
      * now rewrite Hget.
      * unfold offending. now rewrite Hk, Hget, Hdef.
    + intros v c Hget Hann Hinst. apply Hbad.
      rewrite (Hfirst before p after Hsplit Hbefore).
      * now rewrite Hget, Hann.
      * unfold offending. now rewrite Hk, Hget, Hann, Hinst.
  - intros Hex. apply check_parameters_some in Hex. destruct Hex as [reason E].
    exists reason. apply Hbad. rewrite check_filter_func_eq.
    fold parameters. now rewrite E.
  - intros Hva Hvk k Hk Hno.
    assert (Hun : In k (unexpected_vals parameters kw)).
    { apply unexpected_vals_In. now split. }
    destruct (check_parameters parameters kw) as [reason|] eqn:E.
    + exists reason. apply Hbad. rewrite check_filter_func_eq.
      fold parameters. now rewrite E.
    + destruct (unexpected_vals parameters kw) as [|u us] eqn:Eu;
        [contradiction|].
      eexists. apply Hbad. rewrite check_filter_func_eq.
      fold parameters. rewrite E, Hva, Hvk, Eu. reflexivity.
  - intros Hall Hrest. apply check_parameters_none in Hall.
    unfold outcome.
    apply (get_filter_func_valid h preset prop prop_func func (Some kw) "");
      try assumption.
    rewrite check_filter_func_eq. fold parameters. rewrite Hall.
    destruct Hrest as [Hva|[Hvk|Hu]].
    + rewrite Hva. reflexivity.
    + rewrite Hvk, andb_false_r. reflexivity.
    + rewrite Hu. now destruct (negb _ && negb _).
Qed.

End GetFilterFunc.

(** Runs on the test doubles. *)
Import Fixture.

Lemma get_filter_func_validation_witness :
  let kw := [("high", PyStr "ten")] in
  check_supported handler_ids EQUAL_TO ServerProperties.SERVER_ID = true /\
  dict_get enum_eqb (_filter_functions handler_ids) EQUAL_TO = Some prop_between /\
  get_filter_func handler_ids EQUAL_TO ServerProperties.SERVER_ID
    (fun a => subscript a "id") (Some kw)
  = Raise (QueryPresetMappingError
             (argument_error_msg EQUAL_TO ServerProperties.SERVER_ID
                "low expected but not given")).
Proof.
  split; [reflexivity|]. split; [reflexivity|].
  refine (proj1 (proj1
    (get_filter_func_validation handler_ids EQUAL_TO ServerProperties.SERVER_ID
       (fun a => subscript a "id") prop_between [("high", PyStr "ten")]
       eq_refl eq_refl)
    [] (mkParam "low" POSITIONAL_OR_KEYWORD None (AnnClass TInt))
    [mkParam "high" POSITIONAL_OR_KEYWORD (Some (PyInt 10)) (AnnClass TInt)]
    eq_refl (Forall_nil _) eq_refl) eq_refl eq_refl).
Defined.

(** A value of the wrong class for an annotated parameter. *)
Example wrong_type_rejected :
  get_filter_func handler_ids EQUAL_TO ServerProperties.SERVER_ID
    (fun a => subscript a "id") (Some [("low", PyStr "one")])
  = Raise (QueryPresetMappingError
      "Preset Argument Error: failed to build client-side filter function for preset:prop: 'EQUAL_TO':'SERVER_ID' reason: low given has incorrect type, expected <class 'int'>, found <class 'str'>").
Proof. reflexivity. Qed.

(** A key that is no parameter of the function. *)
Example unexpected_key_rejected :
  get_filter_func handler_generic EQUAL_TO ServerProperties.SERVER_NAME
    (fun a => subscript a "name")
    (Some [("value", PyStr "web"); ("colour", PyStr "red")])
  = Raise (QueryPresetMappingError
      "Preset Argument Error: failed to build client-side filter function for preset:prop: 'EQUAL_TO':'SERVER_NAME' reason: unexpected arguments: '{'colour'}'").
Proof. reflexivity. Qed.

(** C5 as stated fails for a keyword-only parameter: [value] of
    [prop_is(prop, *, value)] has no default and is absent from the
    keyword arguments, the function takes no arbitrary keyword arguments,
    and yet the check passes and a predicate is returned. *)
Lemma keyword_only_counterexample :
  let kwargs : option (dict string pyval) := Some [] in
  map (fun p => (param_name p, kind p, default p)) (tl (signature prop_is))
  = [("value", KEYWORD_ONLY, None)] /\
  has_kind VAR_KEYWORD (tl (signature prop_is)) = false /\
  _check_filter_func prop_is kwargs = Ok (true, "") /\
  raises (get_filter_func handler_keyword_only EQUAL_TO
            ServerProperties.SERVER_NAME (fun a => subscript a "name") kwargs)
  = false.
Proof. repeat split. Qed.

(** C1 at the failing inputs: the predicate built for
    [(EQUAL_TO, USER_ID)] with the accessor of [ServerProperties], applied
    to a server record without a ["user_id"], raises [KeyError], and the
    one built for [(EQUAL_TO, PROJECT_ID)], applied to a server record
    whose ["location"] is [None], raises [TypeError]: the accessors
    subscript the record, and the wrapper catches [AttributeError] only.
    On a record that has the property the predicate answers. *)
Theorem missing_property_raises :
  let kwargs := Some [("value", PyStr "alice")] in
  match accessor ServerProperties.USER_ID, accessor ServerProperties.PROJECT_ID with
  | Some user_id, Some project_id =>
      match
        get_filter_func handler_generic EQUAL_TO ServerProperties.USER_ID
          user_id kwargs,
        get_filter_func handler_generic EQUAL_TO ServerProperties.PROJECT_ID
          project_id kwargs
      with
      | Ok by_user, Ok by_project =>
          user_id server_without_user = Raise (KeyError "user_id") /\
          by_user server_without_user = Raise (KeyError "user_id") /\
          by_user (PyDict [("user_id", PyStr "alice")]) = Ok true /\
          project_id server_without_location = Raise TypeError /\
          by_project server_without_location = Raise TypeError
      | _, _ => False
      end
  | _, _ => False
  end.
Proof. vm_compute. repeat split. Qed.

End HandlerFacts.

(** ** The query builder *)
Module BuilderFacts.
Import Py ClientSideHandler QueryBuilder.
Local Open Scope list_scope.

Section Selection.
Context {Preset P : Type} {EnumPreset : Enum Preset} {EnumP : Enum P}.
Implicit Types (self : QueryBuilder.t Preset P).
Implicit Types (i j : ClientSideHandler.t Preset P).

Lemma check_supported_known i (preset : Preset) (prop : P) :
  check_supported i preset prop = true -> preset_known i preset = true.
Proof.
  unfold check_supported. destruct (preset_known i preset); [reflexivity|].
  discriminate.
Qed.

Lemma find_first {A : Type} (f : A -> bool) (l : list A) x :
  find f l = Some x ->
  exists before after,
    l = before ++ x :: after /\ f x = true
    /\ Forall (fun y => f y = false) before.
Proof.
  induction l as [|y r IH]; simpl; [discriminate|].
  destruct (f y) eqn:E.
  - intros H. injection H as ->. exists [], r. now repeat split.
  - intros H. destruct (IH H) as [before [after [-> [Hx Hb]]]].
    exists (y :: before), after. repeat split; [exact Hx|now constructor].
Qed.

Lemma find_nothing {A : Type} (f : A -> bool) (l : list A) :
  find f l = None -> Forall (fun y => f y = false) l.
Proof.
  intros H. apply Forall_forall. intros y Hy.
  now apply (find_none f l H).
Qed.

Lemma messages_differ (preset : Preset) (prop : P) :
  unknown_preset_msg preset prop <> unsupported_pair_msg preset.
Proof.
  unfold unknown_preset_msg, unsupported_pair_msg. intros H.
  apply StringFacts.append_inj_l, StringFacts.append_inj_l in H.
  simpl in H. discriminate H.
Qed.

(** C4: [_get_preset_handler] returns the first handler of the list that
    supports the pair, whatever comes after it; it raises only when no
    handler supports the pair, with one message when no handler knows the
    preset and another when some handler does; [parse_where], on a builder
    without a filter and for a property with an accessor, raises that
    error or takes its predicate from the selected handler. *)
Theorem preset_handler_selection self (preset : Preset) (prop : P) :
  let handlers := _client_side_handlers self in
  match _get_preset_handler self preset prop with
  | Ok i =>
      exists before after,
        handlers = before ++ i :: after
        /\ check_supported i preset prop = true
        /\ Forall (fun j => check_supported j preset prop = false) before
  | Raise e =>
      Forall (fun j => check_supported j preset prop = false) handlers
      /\ ((Forall (fun j => preset_known j preset = false) handlers
           /\ e = QueryPresetMappingError (unknown_preset_msg preset prop))
          \/ (Exists (fun j => preset_known j preset = true) handlers
              /\ e = QueryPresetMappingError (unsupported_pair_msg preset)))
  end
  /\ unknown_preset_msg preset prop <> unsupported_pair_msg preset
  /\ (forall kwargs prop_func,
        _client_side_filter self = None ->
        PropHandler.get_prop_func (_prop_handler self) prop = Some prop_func ->
        match _get_preset_handler self preset prop with
        | Raise e => parse_where self preset prop kwargs = (self, Raise e)
        | Ok i =>
            match get_filter_func i preset prop prop_func kwargs with
            | Raise e => parse_where self preset prop kwargs = (self, Raise e)
            | Ok pred =>
                _client_side_filter (fst (parse_where self preset prop kwargs))
                = Some pred
            end
        end).
Proof.
  intros handlers. split; [|split; [apply messages_differ|]].
  - unfold _get_preset_handler. fold handlers.
    destruct (existsb (fun i => preset_known i preset) handlers) eqn:Ek; simpl.
    + destruct (find (fun i => check_supported i preset prop) handlers)
        as [i|] eqn:Ef.
      * now apply find_first in Ef.
      * split; [now apply find_nothing|]. right. split; [|reflexivity].
        apply existsb_exists in Ek. now apply Exists_exists.
    + assert (Hk : Forall (fun j => preset_known j preset = false) handlers).
      { apply Forall_forall. intros j Hj.
        destruct (preset_known j preset) eqn:E; [|reflexivity].
        assert (X : existsb (fun i => preset_known i preset) handlers = true)
          by (apply existsb_exists; eauto).
        congruence. }
      split; [|now left].
      eapply Forall_impl; [|exact Hk]. simpl. intros j Hj.
      destruct (check_supported j preset prop) eqn:E; [|reflexivity].
      apply check_supported_known in E. congruence.
  - intros kwargs prop_func Hnone Hacc. unfold parse_where.
    rewrite Hnone, Hacc.
    destruct (_get_preset_handler self preset prop) as [i|e]; [|reflexivity].
    destruct (get_filter_func i preset prop prop_func kwargs) as [pred|e];
      [|reflexivity].
    simpl. destruct (_server_side_handler self); reflexivity.
Qed.

(** C3: once [parse_where] has completed on a builder, every further
    [parse_where] on it raises [ParseQueryError] and changes nothing. *)
Theorem parse_where_twice self (preset preset' : Preset) (prop prop' : P)
    kwargs kwargs' self' :
  parse_where self preset prop kwargs = (self', Ok tt) ->
  parse_where self' preset' prop' kwargs'
  = (self', Raise (ParseQueryError already_set_msg)).
Proof.
  unfold parse_where at 1.
  destruct (_client_side_filter self); [discriminate|].
  destruct (PropHandler.get_prop_func (_prop_handler self) prop);
    [|discriminate].
  destruct (_get_preset_handler self preset prop); [|discriminate].
  destruct (get_filter_func _ preset prop _ kwargs); [|discriminate].
  simpl. destruct (_server_side_handler self); [|discriminate].
  intros H. injection H as <-. reflexivity.
Qed.

End Selection.

(** Runs on the test doubles. *)
Import Fixture.

(** [handler_ids] and [handler_generic] both support
    [(EQUAL_TO, SERVER_ID)]; the one that comes first is selected. *)
Example first_handler_wins :
  _get_preset_handler builder EQUAL_TO ServerProperties.SERVER_ID = Ok handler_ids
  /\ check_supported handler_generic EQUAL_TO ServerProperties.SERVER_ID = true
  /\ _get_preset_handler builder EQUAL_TO ServerProperties.SERVER_NAME
     = Ok handler_generic.
Proof. repeat split. Qed.

(** A preset that a handler knows, for a property it does not cover. *)
Example incompatible_pair :
  _get_preset_handler builder ANY_IN ServerProperties.SERVER_ID
  = Raise (QueryPresetMappingError
      "No client-side handler found for preset 'ANY_IN'- this query is likely misconfigured/preset is not supported on resource").
Proof. reflexivity. Qed.

Lemma parse_where_twice_witness :
  let kwargs := Some [("value", PyStr "web")] in
  let first := parse_where builder EQUAL_TO ServerProperties.SERVER_NAME kwargs in
  snd first = Ok tt /\
  parse_where (fst first) ANY_IN ServerProperties.SERVER_NAME kwargs
  = (fst first, Raise (ParseQueryError already_set_msg)).
Proof.
  split; [reflexivity|].
  apply (parse_where_twice builder EQUAL_TO ANY_IN ServerProperties.SERVER_NAME
           ServerProperties.SERVER_NAME (Some [("value", PyStr "web")])).
  reflexivity.
Defined.

End BuilderFacts.

(** ** The enumerations read from text *)
Module EnumFacts.
Import Py.
Local Open Scope list_scope.

Section ByName.
Context {T : Type} {EnumT : Enum T}.

Lemma by_name_some (members : list T) key m :
  by_name members key = Some m -> In m members /\ name m = key.
Proof.
  unfold by_name. intros H. apply find_some in H.
  destruct H as [Hin E]. now apply String.eqb_eq in E.
Qed.

Lemma by_name_none (members : list T) key m :
  by_name members key = None -> In m members -> name m <> key.
Proof.
  unfold by_name. intros H Hin E.
  pose proof (find_none _ _ H m Hin) as N. simpl in N.
  apply String.eqb_eq in E. congruence.
Qed.

End ByName.

(** X1: on ASCII text, [ServerProperties.from_string] finds a member
    exactly when the text, upper-cased, is the member's name, so a name
    written in any letter case is read back as the member; any other
    ASCII text raises [ParseQueryError] with the text and the list of all
    member names. *)
Theorem server_property_from_string :
  (forall (val : ascii_text) p,
     ServerProperties.from_string val = Ok p
     <-> upper val = ServerProperties.member_name p) /\
  (forall val : ascii_text,
     (forall p, upper val <> ServerProperties.member_name p) ->
     ServerProperties.from_string val
     = Raise (ParseQueryError (ServerProperties.could_not_find_msg (text val)))).
Proof.
  split.
  - intros val p. unfold ServerProperties.from_string. split.
    + destruct (by_name ServerProperties.members (upper val)) as [q|] eqn:E;
        [|discriminate].
      intros H. injection H as ->. apply by_name_some in E.
      symmetry. apply E.
    + intros ->. destruct p; reflexivity.
  - intros val Hno. unfold ServerProperties.from_string.
    destruct (by_name ServerProperties.members (upper val)) as [q|] eqn:E;
      [|reflexivity].
    apply by_name_some in E. destruct E as [_ E].
    exfalso. apply (Hno q). now symmetry.
Qed.

(** Text in mixed case, in lower case, and text that names no property. *)
Example server_property_mixed_case :
  ServerProperties.from_string (mk_text "Server_Name" eq_refl)
  = Ok ServerProperties.SERVER_NAME /\
  ServerProperties.from_string (mk_text "flavor_id" eq_refl)
  = Ok ServerProperties.FLAVOR_ID /\
  ServerProperties.from_string (mk_text "flavour" eq_refl)
  = Raise (ParseQueryError
      "Could not find Server Property flavour. Available properties are FLAVOR_ID,HYPERVISOR_ID,IMAGE_ID,PROJECT_ID,SERVER_CREATION_DATE,SERVER_DESCRIPTION,SERVER_ID,SERVER_LAST_UPDATED_DATE,SERVER_NAME,SERVER_STATUS,USER_ID").
Proof. repeat split. Qed.

(** X2: on ASCII text, [SortOrder.from_string] reads "asc" and "desc" in
    any letter case, [DESC] being the order whose value is [True] (the
    [reverse] flag of a sort pass) and [ASC] the one whose value is
    [False]; any other ASCII text raises [ParseQueryError]. *)
Theorem sort_order_from_string :
  (forall (val : ascii_text) o,
     SortOrder.from_string val = Ok o <-> upper val = SortOrder.member_name o) /\
  (forall (val : ascii_text) o,
     SortOrder.from_string val = Ok o ->
     SortOrder.value o = String.eqb (upper val) "DESC") /\
  (forall val : ascii_text,
     upper val <> "ASC"%string -> upper val <> "DESC"%string ->
     SortOrder.from_string val
     = Raise (ParseQueryError (SortOrder.could_not_find_msg (text val)))).
Proof.
  assert (H1 : forall (val : ascii_text) o,
            SortOrder.from_string val = Ok o
            <-> upper val = SortOrder.member_name o).
  { intros val o. unfold SortOrder.from_string. split.
    - destruct (by_name SortOrder.members (upper val)) as [q|] eqn:E;
        [|discriminate].
      intros H. injection H as ->. apply by_name_some in E.
      symmetry. apply E.
    - intros ->. destruct o; reflexivity. }
  split; [exact H1|split].
  - intros val o H. apply H1 in H. rewrite H. now destruct o.
  - intros val Ha Hd. unfold SortOrder.from_string.
    destruct (by_name SortOrder.members (upper val)) as [q|] eqn:E;
      [|reflexivity].
    apply by_name_some in E. destruct E as [_ E].
    destruct q; simpl in E; congruence.
Qed.

Example sort_order_mixed_case :
  SortOrder.from_string (mk_text "Desc" eq_refl) = Ok SortOrder.DESC /\
  SortOrder.from_string (mk_text "asc" eq_refl) = Ok SortOrder.ASC /\
  SortOrder.from_string (mk_text "descending" eq_refl)
  = Raise (ParseQueryError
      "Could not find convert descending into a sort order enum. Available orders are ASC,DESC").
Proof. repeat split. Qed.

(** X3: on ASCII text, [ServerStatus.from_string] reads a status name in
    any letter case; for any other ASCII text the [KeyError] of the
    lookup, carrying the upper-cased text, leaves the function as it is. *)
Theorem server_status_from_string :
  (forall (val : ascii_text) st,
     ServerStatus.from_string val = Ok st
     <-> upper val = ServerStatus.member_name st) /\
  (forall val : ascii_text,
     (forall st, upper val <> ServerStatus.member_name st) ->
     ServerStatus.from_string val = Raise (KeyError (upper val))).
Proof.
  split.
  - intros val st. unfold ServerStatus.from_string. split.
    + destruct (by_name ServerStatus.members (upper val)) as [q|] eqn:E;
        [|discriminate].
      intros H. injection H as ->. apply by_name_some in E.
      symmetry. apply E.
    + intros ->. destruct st; reflexivity.
  - intros val Hno. unfold ServerStatus.from_string.
    destruct (by_name ServerStatus.members (upper val)) as [q|] eqn:E;
      [|reflexivity].
    apply by_name_some in E. destruct E as [_ E].
    exfalso. apply (Hno q). now symmetry.
Qed.

(** The texts of the tests of the status names. *)
Example server_status_mixed_case :
  ServerStatus.from_string (mk_text "SuspendeD" eq_refl) = Ok ServerStatus.SUSPENDED /\
  ServerStatus.from_string (mk_text "AcTiVE" eq_refl) = Ok ServerStatus.ACTIVE /\
  ServerStatus.from_string (mk_text "shutoff" eq_refl) = Ok ServerStatus.SHUTOFF /\
  ServerStatus.from_string (mk_text "ErRor" eq_refl) = Ok ServerStatus.ERROR /\
  ServerStatus.from_string (mk_text "paused" eq_refl) = Raise (KeyError "PAUSED").
Proof. repeat split. Qed.

Lemma server_property_from_string_witness :
  ServerProperties.from_string (mk_text "User_Id" eq_refl)
  = Ok ServerProperties.USER_ID /\
  ServerProperties.from_string (mk_text "flavour" eq_refl)
  = Raise (ParseQueryError
             (ServerProperties.could_not_find_msg "flavour")).
Proof.
  split.
  - apply (proj1 server_property_from_string). reflexivity.
  - apply (proj2 server_property_from_string (mk_text "flavour" eq_refl)).
    intros p. destruct p; discriminate.
Defined.

Lemma sort_order_from_string_witness :
  SortOrder.from_string (mk_text "Desc" eq_refl) = Ok SortOrder.DESC /\
  SortOrder.from_string (mk_text "up" eq_refl)
  = Raise (ParseQueryError (SortOrder.could_not_find_msg "up")).
Proof.
  split.
  - apply (proj1 sort_order_from_string). reflexivity.
  - apply (proj2 (proj2 sort_order_from_string) (mk_text "up" eq_refl));
      discriminate.
Defined.

Lemma server_status_from_string_witness :
  ServerStatus.from_string (mk_text "AcTiVE" eq_refl) = Ok ServerStatus.ACTIVE /\
  ServerStatus.from_string (mk_text "paused" eq_refl) = Raise (KeyError "PAUSED").
Proof.
  split.
  - apply (proj1 server_status_from_string). reflexivity.
  - apply (proj2 server_status_from_string (mk_text "paused" eq_refl)).
    intros st. destruct st; discriminate.
Defined.

End EnumFacts.

(** ** More on the client-side handler *)
Module HandlerMore.
Import Py ClientSideHandler HandlerFacts.
Local Open Scope list_scope.

Section Handlers.
Context {Preset P : Type} {EnumPreset : Enum Preset} {EnumP : Enum P}.
Implicit Types (h : ClientSideHandler.t Preset P) (func : FilterFunc).

Lemma dict_mem_get {K V : Type} (eqb : K -> K -> bool) (d : dict K V) k :
  dict_mem eqb d k = true <-> exists v, dict_get eqb d k = Some v.
Proof.
  unfold dict_mem. destruct (dict_get eqb d k) as [v|].
  - split; [eauto|reflexivity].
  - split; [discriminate|]. intros [v E]. discriminate E.
Qed.

Lemma entry_is_Member (prop : P) props :
  existsb (entry_is prop) props = true <-> In (Member prop) props.
Proof.
  rewrite existsb_exists. split.
  - intros [e [Hin E]]. destruct e as [|p]; [discriminate|].
    simpl in E. apply enum_eqb_eq in E. now subst.
  - intros Hin. exists (Member prop). split; [exact Hin|].
    simpl. now apply enum_eqb_eq.
Qed.

Lemma is_wildcard_iff (props : list (Entry P)) :
  is_wildcard props = true <-> props = [Star].
Proof.
  split; [|now intros ->].
  destruct props as [|[|p] [|e r]]; simpl; try discriminate. reflexivity.
Qed.

(** X4: a handler supports a preset and property pair exactly when the
    preset has an entry in its table and the entry either lists the
    property or is the list of "*" alone; a preset is known exactly when
    it has an entry, so a supported pair is always of a known preset, and
    a list that holds "*" beside other entries is no wildcard. *)
Theorem check_supported_iff h (preset : Preset) (prop : P) :
  (check_supported h preset prop = true
   <-> exists props,
         dict_get enum_eqb (_filter_function_mappings h) preset = Some props
         /\ (In (Member prop) props \/ props = [Star])) /\
  (preset_known h preset = true
   <-> exists props,
         dict_get enum_eqb (_filter_function_mappings h) preset = Some props) /\
  (check_supported h preset prop = true -> preset_known h preset = true).
Proof.
  assert (Hk : preset_known h preset = true
               <-> exists props,
                     dict_get enum_eqb (_filter_function_mappings h) preset
                     = Some props)
    by apply dict_mem_get.
  assert (Hs : check_supported h preset prop = true
               <-> exists props,
                     dict_get enum_eqb (_filter_function_mappings h) preset
                     = Some props
                     /\ (In (Member prop) props \/ props = [Star])).
  { unfold check_supported, preset_known, dict_mem.
    destruct (dict_get enum_eqb (_filter_function_mappings h) preset)
      as [props|]; simpl.
    - destruct (existsb (entry_is prop) props) eqn:E.
      + apply entry_is_Member in E. split; [eauto|reflexivity].
      + destruct (is_wildcard props) eqn:W.
        * apply is_wildcard_iff in W. split; [eauto|reflexivity].
        * split; [discriminate|]. intros [ps [Eq [Hin|Hw]]];
            injection Eq as <-.
          -- apply entry_is_Member in Hin. congruence.
          -- apply is_wildcard_iff in Hw. congruence.
    - split; [discriminate|]. intros [ps [Eq _]]. discriminate Eq. }
  split; [exact Hs|]. split; [exact Hk|].
  intros H. apply Hk. apply Hs in H. destruct H as [props [E _]]. eauto.
Qed.

(** X5: on a record whose accessor returns a value, a predicate of
    [get_filter_func] calls the function that the handler holds for the
    preset with that value and the keyword arguments it was built with. *)
Theorem predicate_applies_filter h (preset : Preset) (prop : P) prop_func
    kwargs pred item v :
  get_filter_func h preset prop prop_func kwargs = Ok pred ->
  prop_func item = Ok v ->
  exists func kw,
    dict_get enum_eqb (_filter_functions h) preset = Some func
    /\ kwargs = Some kw
    /\ pred item = call func v kw.
Proof.
  intros Hp Hv. unfold get_filter_func in Hp.
  destruct (check_supported h preset prop); [|discriminate].
  destruct (dict_get enum_eqb (_filter_functions h) preset) as [func|];
    [|discriminate].
  destruct kwargs as [kw|]; [|discriminate].
  destruct (_check_filter_func func (Some kw)) as [[[] reason]|]; simpl in Hp;
    try discriminate.
  injection Hp as <-. exists func, kw. repeat split.
  unfold _filter_func_wrapper. rewrite Hv. now destruct kw.
Qed.

(** X6: the function behind a predicate is chosen by the preset alone:
    two properties that a handler supports for a preset get the same
    predicate when built with the same accessor and keyword arguments. *)
Theorem predicate_keyed_on_preset h (preset : Preset) (prop prop' : P)
    prop_func kwargs pred pred' :
  get_filter_func h preset prop prop_func kwargs = Ok pred ->
  get_filter_func h preset prop' prop_func kwargs = Ok pred' ->
  pred = pred'.
Proof.
  intros H H'. apply get_filter_func_ok in H, H'.
  destruct H as [func [Ef ->]], H' as [func' [Ef' ->]].
  rewrite Ef in Ef'. now injection Ef' as <-.
Qed.

(** Without keyword arguments ([filter_func_kwargs=None], the default)
    [get_filter_func] never returns a predicate: for a pair the handler
    has a function for, the check of the arguments raises
    [AttributeError]; otherwise the mapping error is raised. *)
Lemma get_filter_func_without_kwargs h (preset : Preset) (prop : P)
    prop_func :
  get_filter_func h preset prop prop_func None
  = if check_supported h preset prop
    then
      match dict_get enum_eqb (_filter_functions h) preset with
      | Some _ => Raise AttributeError
      | None => Raise (QueryPresetMappingError (not_found_msg preset prop))
      end
    else Raise (QueryPresetMappingError (not_found_msg preset prop)).
Proof.
  unfold get_filter_func. destruct (check_supported h preset prop);
    [|reflexivity].
  destruct (dict_get enum_eqb (_filter_functions h) preset); reflexivity.
Qed.

(** X8: for the accessors of [ServerProperties], whatever the handler and
    the preset, a predicate applied to a record on which the accessor
    fails raises the accessor's exception (a [KeyError] or a [TypeError]):
    it never answers [False] for such a record. *)
Theorem server_property_failure_raises
    (h : ClientSideHandler.t Preset ServerProperties.t) (preset : Preset)
    (p : ServerProperties.t) prop_func kwargs pred item e :
  ServerProperties.get_prop_func (Q := Empty_set) (inl p) = Ok prop_func ->
  get_filter_func h preset p prop_func kwargs = Ok pred ->
  prop_func item = Raise e ->
  pred item = Raise e /\ (e = TypeError \/ exists k, e = KeyError k).
Proof.
  intros Hacc Hp He.
  assert (Hsub : forall v k e', subscript v k = Raise e' ->
                   e' = TypeError \/ exists k', e' = KeyError k').
  { intros v k e'. unfold subscript.
    destruct v; try (intros H; injection H as <-; now left).
    destruct (dict_get String.eqb d k); [discriminate|].
    intros H. injection H as <-. right. eauto. }
  assert (Hkind : e = TypeError \/ exists k, e = KeyError k).
  { destruct p; simpl in Hacc; injection Hacc as <-;
      try (eapply Hsub; exact He).
    unfold bind in He.
    destruct (subscript item "location") as [l|e1] eqn:E1.
    - destruct (subscript l "project") as [pr|e2] eqn:E2.
      + eapply Hsub; exact He.
      + injection He as <-. eapply Hsub; exact E2.
    - injection He as <-. eapply Hsub; exact E1. }
  split; [|exact Hkind].
  rewrite (predicate_on_failed_accessor h preset p prop_func kwargs pred item e
             Hp He).
  destruct Hkind as [->|[k ->]]; reflexivity.
Qed.

(** X9: on a record whose accessor raises, a predicate of
    [get_filter_func] answers [False] when the exception is
    [AttributeError] and raises the exception otherwise; either way the
    outcome is the same whatever the filter function is, which is never
    called. *)
Theorem failed_accessor_outcome h (preset : Preset) (prop : P) prop_func
    kwargs pred item e :
  get_filter_func h preset prop prop_func kwargs = Ok pred ->
  prop_func item = Raise e ->
  (e = AttributeError -> pred item = Ok false) /\
  (e <> AttributeError -> pred item = Raise e) /\
  (forall func, _filter_func_wrapper item func prop_func kwargs = pred item).
Proof.
  intros Hp He.
  pose proof (predicate_on_failed_accessor h preset prop prop_func kwargs pred
                item e Hp He) as H.
  split; [|split].
  - intros ->. exact H.
  - intros Hne. rewrite H. destruct e; try reflexivity. contradiction.
  - intros func. rewrite H. unfold _filter_func_wrapper. rewrite He.
    now destruct e.
Qed.

End Handlers.

(** Runs on the test doubles. *)
Import Fixture.

Lemma predicate_applies_filter_witness :
  let kwargs := Some [("value", PyStr "web")] in
  let prop_func := fun a => subscript a "name" in
  let pred := fun resource =>
    _filter_func_wrapper resource prop_equal_to prop_func kwargs in
  get_filter_func handler_generic EQUAL_TO ServerProperties.SERVER_NAME
    prop_func kwargs = Ok pred /\
  prop_func server_without_user = Ok (PyStr "web") /\
  exists func kw,
    dict_get enum_eqb (_filter_functions handler_generic) EQUAL_TO = Some func
    /\ kwargs = Some kw
    /\ pred server_without_user = call func (PyStr "web") kw.
Proof.
  split; [reflexivity|]. split; [reflexivity|].
  apply (predicate_applies_filter handler_generic EQUAL_TO
           ServerProperties.SERVER_NAME (fun a => subscript a "name")
           (Some [("value", PyStr "web")])
           (fun resource =>
              _filter_func_wrapper resource prop_equal_to
                (fun a => subscript a "name") (Some [("value", PyStr "web")]))
           server_without_user (PyStr "web")); reflexivity.
Defined.

Lemma predicate_keyed_on_preset_witness :
  let kwargs := Some [("value", PyStr "web")] in
  let prop_func := fun a => subscript a "name" in
  raises (get_filter_func handler_generic EQUAL_TO ServerProperties.SERVER_NAME
            prop_func kwargs) = false /\
  (fun resource => _filter_func_wrapper resource prop_equal_to prop_func kwargs)
  = (fun resource => _filter_func_wrapper resource prop_equal_to prop_func kwargs).
Proof.
  split; [reflexivity|].
  apply (predicate_keyed_on_preset handler_generic EQUAL_TO
           ServerProperties.SERVER_NAME ServerProperties.USER_ID
           (fun a => subscript a "name") (Some [("value", PyStr "web")]));
    reflexivity.
Defined.

Lemma server_property_failure_witness :
  let kwargs := Some [("value", PyStr "alice")] in
  let prop_func := fun a => subscript a "user_id" in
  let pred := fun resource =>
    _filter_func_wrapper resource prop_equal_to prop_func kwargs in
  ServerProperties.get_prop_func (Q := Empty_set) (inl ServerProperties.USER_ID)
  = Ok prop_func /\
  pred server_without_user = Raise (KeyError "user_id").
Proof.
  split; [reflexivity|].
  apply (server_property_failure_raises handler_generic EQUAL_TO
           ServerProperties.USER_ID (fun a => subscript a "user_id")
           (Some [("value", PyStr "alice")])
           (fun resource =>
              _filter_func_wrapper resource prop_equal_to
                (fun a => subscript a "user_id") (Some [("value", PyStr "alice")]))
           server_without_user (KeyError "user_id")); reflexivity.
Defined.

(** An accessor that reads an attribute the record does not have. *)
Lemma failed_accessor_outcome_witness :
  let kwargs := Some [("value", PyStr "alice")] in
  let prop_func := fun _ : pyval => @Raise pyval AttributeError in
  let pred := fun resource =>
    _filter_func_wrapper resource prop_equal_to prop_func kwargs in
  get_filter_func handler_generic EQUAL_TO ServerProperties.USER_ID
    prop_func kwargs = Ok pred /\
  pred server_without_user = Ok false /\
  _filter_func_wrapper server_without_user prop_boom prop_func kwargs
  = pred server_without_user.
Proof.
  split; [reflexivity|].
  pose proof (failed_accessor_outcome handler_generic EQUAL_TO
                ServerProperties.USER_ID (fun _ => Raise AttributeError)
                (Some [("value", PyStr "alice")])
                (fun resource =>
                   _filter_func_wrapper resource prop_equal_to
                     (fun _ => Raise AttributeError)
                     (Some [("value", PyStr "alice")]))
                server_without_user AttributeError eq_refl eq_refl) as H.
  split; [exact (proj1 H eq_refl)|exact (proj2 (proj2 H) prop_boom)].
Defined.

End HandlerMore.

(** ** More on the query builder *)
Module BuilderMore.
Import Py ClientSideHandler QueryBuilder.
Local Open Scope list_scope.

Section Outcomes.
Context {Preset P : Type} {EnumPreset : Enum Preset} {EnumP : Enum P}.
Implicit Types (self : QueryBuilder.t Preset P).

(** X7: [parse_where] called without keyword arguments
    ([preset_kwargs=None], the default) never sets a filter: whatever the
    builder, the preset and the property, it raises and leaves the builder
    as it was. *)
Theorem parse_where_without_kwargs self (preset : Preset) (prop : P) :
  exists e, parse_where self preset prop None = (self, Raise e).
Proof.
  unfold parse_where.
  destruct (_client_side_filter self); [eauto|].
  destruct (PropHandler.get_prop_func (_prop_handler self) prop) as [pf|];
    [|eauto].
  destruct (_get_preset_handler self preset prop) as [i|e]; [|eauto].
  rewrite HandlerMore.get_filter_func_without_kwargs.
  destruct (check_supported i preset prop); [|eauto].
  destruct (dict_get enum_eqb (_filter_functions i) preset); eauto.
Qed.

(** X10: on a builder that has a server-side handler, [parse_where] is all
    or nothing: either it raises and the builder is unchanged, or it
    succeeds on a builder that had no filter and stores together the
    predicate of the selected handler and the server-side filters that the
    server-side handler gives for the same preset, property and
    arguments. *)
Theorem parse_where_all_or_nothing self (preset : Preset) (prop : P) kwargs ssh :
  _server_side_handler self = Some ssh ->
  (exists e, parse_where self preset prop kwargs = (self, Raise e)) \/
  (exists i prop_func pred,
     _client_side_filter self = None
     /\ PropHandler.get_prop_func (_prop_handler self) prop = Some prop_func
     /\ _get_preset_handler self preset prop = Ok i
     /\ get_filter_func i preset prop prop_func kwargs = Ok pred
     /\ parse_where self preset prop kwargs
        = (mk (_client_side_handlers self) (_prop_handler self) (Some ssh)
             (Some pred) (get_filters ssh preset prop kwargs),
           Ok tt)).
Proof.
  intros Hs. unfold parse_where.
  destruct (_client_side_filter self) eqn:Ef; [left; eauto|].
  destruct (PropHandler.get_prop_func (_prop_handler self) prop) as [pf|] eqn:Ea;
    [|left; eauto].
  destruct (_get_preset_handler self preset prop) as [i|e] eqn:Eh;
    [|left; eauto].
  destruct (get_filter_func i preset prop pf kwargs) as [pred|e] eqn:Eg;
    [|left; eauto].
  right. exists i, pf, pred. do 4 (split; [reflexivity || assumption|]).
  simpl. rewrite Hs.
  unfold set_server_side_filters, set_client_side_filter. simpl.
  now rewrite Hs.
Qed.

(** X11: on a builder made without a server-side handler, [parse_where]
    never succeeds: it raises either before a predicate is built, leaving
    the builder unchanged, or [AttributeError] after the predicate was
    stored, and then every later [parse_where] raises [ParseQueryError]. *)
Theorem parse_where_client_only self (preset : Preset) (prop : P) kwargs :
  _server_side_handler self = None ->
  (exists e, parse_where self preset prop kwargs = (self, Raise e)) \/
  (exists pred,
     parse_where self preset prop kwargs
     = (set_client_side_filter self pred, Raise AttributeError)
     /\ forall (preset' : Preset) (prop' : P) kwargs',
          parse_where (set_client_side_filter self pred) preset' prop' kwargs'
          = (set_client_side_filter self pred,
             Raise (ParseQueryError already_set_msg))).
Proof.
  intros Hs. unfold parse_where at 1 2.
  destruct (_client_side_filter self) eqn:Ef; [left; eauto|].
  destruct (PropHandler.get_prop_func (_prop_handler self) prop) as [pf|] eqn:Ea;
    [|left; eauto].
  destruct (_get_preset_handler self preset prop) as [i|e] eqn:Eh;
    [|left; eauto].
  destruct (get_filter_func i preset prop pf kwargs) as [pred|e] eqn:Eg;
    [|left; eauto].
  right. exists pred. simpl. rewrite Hs. split; reflexivity.
Qed.

End Outcomes.

(** Runs on the test doubles. *)
Import Fixture.

Lemma parse_where_all_or_nothing_witness :
  let kwargs := Some [("value", PyStr "web")] in
  _server_side_handler builder = Some server_side /\
  snd (parse_where builder EQUAL_TO ServerProperties.SERVER_NAME kwargs) = Ok tt /\
  (let kwargs := Some [("colour", PyStr "red")] in
   (exists e, parse_where builder EQUAL_TO ServerProperties.SERVER_NAME kwargs
              = (builder, Raise e)) \/
   (exists i prop_func pred,
      _client_side_filter builder = None
      /\ PropHandler.get_prop_func (_prop_handler builder)
           ServerProperties.SERVER_NAME = Some prop_func
      /\ _get_preset_handler builder EQUAL_TO ServerProperties.SERVER_NAME = Ok i
      /\ get_filter_func i EQUAL_TO ServerProperties.SERVER_NAME prop_func kwargs
         = Ok pred
      /\ parse_where builder EQUAL_TO ServerProperties.SERVER_NAME kwargs
         = (mk (_client_side_handlers builder) (_prop_handler builder)
              (Some server_side) (Some pred)
              (get_filters server_side EQUAL_TO ServerProperties.SERVER_NAME kwargs),
            Ok tt))).
Proof.
  split; [reflexivity|]. split; [reflexivity|].
  apply (parse_where_all_or_nothing builder EQUAL_TO ServerProperties.SERVER_NAME
           (Some [("colour", PyStr "red")]) server_side).
  reflexivity.
Defined.

Lemma parse_where_client_only_witness :
  let kwargs := Some [("value", PyStr "web")] in
  _server_side_handler builder_client_only = None /\
  snd (parse_where builder_client_only EQUAL_TO ServerProperties.SERVER_NAME kwargs)
  = Raise AttributeError /\
  ((exists e,
      parse_where builder_client_only EQUAL_TO ServerProperties.SERVER_NAME kwargs
      = (builder_client_only, Raise e)) \/
   (exists pred,
      parse_where builder_client_only EQUAL_TO ServerProperties.SERVER_NAME kwargs
      = (set_client_side_filter builder_client_only pred, Raise AttributeError)
      /\ forall (preset' : Preset) (prop' : ServerProperties.t) kwargs',
           parse_where (set_client_side_filter builder_client_only pred)
             preset' prop' kwargs'
           = (set_client_side_filter builder_client_only pred,
              Raise (ParseQueryError already_set_msg)))).
Proof.
  split; [reflexivity|]. split; [reflexivity|].
  apply (parse_where_client_only builder_client_only EQUAL_TO
           ServerProperties.SERVER_NAME (Some [("value", PyStr "web")])).
  reflexivity.
Defined.

End BuilderMore.

(** ** More on the result parser *)
Module ParserMore.
Import Py QueryParser SortFacts ParserFacts.
Local Open Scope list_scope.

Section Configuring.
Context {P : Type} {EnumP : Enum P} {Rec : Type}.
Implicit Types (self : QueryParser.t P Rec) (h : heap Rec) (l : list Rec).
Implicit Types (ph : PropHandler.t Rec P).

Lemma parse_sort_by_loop_all ph d g m (sort_by : list (P * bool)) :
  Forall (supported ph) sort_by ->
  parse_sort_by_loop (mk ph d g m) sort_by
  = (mk ph (dict_update enum_eqb d sort_by) g m, Ok tt).
Proof.
  intros H. revert d. induction H as [|[p o] r Hp _ IH]; intros d.
  - reflexivity.
  - simpl. unfold _check_prop_valid. simpl.
    unfold supported in Hp. simpl in Hp. rewrite Hp. apply IH.
Qed.

Lemma parse_sort_by_loop_stop ph d g m before p o after :
  Forall (supported ph) before ->
  PropHandler.check_supported ph p = false ->
  parse_sort_by_loop (mk ph d g m) (before ++ (p, o) :: after)
  = (mk ph (dict_update enum_eqb d before) g m,
     Raise (QueryPropertyMappingError
       "Error: failed to get property mapping, property is not supported by prop_handler")).
Proof.
  intros H Hp. revert d. induction H as [|[q o'] r Hq _ IH]; intros d.
  - simpl. unfold _check_prop_valid. simpl. now rewrite Hp.
  - simpl. unfold _check_prop_valid. simpl.
    unfold supported in Hq. simpl in Hq. rewrite Hq. apply IH.
Qed.

Lemma unsupported_split ph (sort_by : list (P * bool)) :
  ~ Forall (supported ph) sort_by ->
  exists before p o after,
    sort_by = before ++ (p, o) :: after
    /\ Forall (supported ph) before
    /\ PropHandler.check_supported ph p = false.
Proof.
  induction sort_by as [|[p o] r IH]; intros H.
  - exfalso. apply H. constructor.
  - destruct (PropHandler.check_supported ph p) eqn:E.
    + destruct IH as [before [q [o' [after [-> [Hb Hq]]]]]].
      { intros Hr. apply H. now constructor. }
      exists ((p, o) :: before), q, o', after.
      repeat split; [|exact Hq]. now constructor.
    + exists [], p, o, r. repeat split; [constructor|exact E].
Qed.

(** X12: [parse_sort_by] succeeds exactly when every property of the
    sequence is supported by the property handler, and then the parser
    holds the new sequence in place of whatever sort configuration it had,
    with the grouping configuration untouched. *)
Theorem parse_sort_by_succeeds_iff self (sort_by : list (P * bool)) :
  (snd (parse_sort_by self sort_by) = Ok tt
   <-> Forall (supported (_prop_handler self)) sort_by) /\
  (snd (parse_sort_by self sort_by) = Ok tt ->
   fst (parse_sort_by self sort_by)
   = mk (_prop_handler self) (dict_update enum_eqb [] sort_by)
       (_group_by self) (_group_mappings self)).
Proof.
  assert (Hok : Forall (supported (_prop_handler self)) sort_by ->
                parse_sort_by self sort_by
                = (mk (_prop_handler self) (dict_update enum_eqb [] sort_by)
                     (_group_by self) (_group_mappings self), Ok tt)).
  { intros H. unfold parse_sort_by, set_sort_by.
    now apply parse_sort_by_loop_all. }
  assert (Hiff : snd (parse_sort_by self sort_by) = Ok tt
                 <-> Forall (supported (_prop_handler self)) sort_by).
  { split; [|intros H; now rewrite Hok].
    intros H.
    destruct (Forall_dec (supported (_prop_handler self))) with (l := sort_by)
      as [Hall|Hnot]; [|exact Hall|].
    - intros [p o]. unfold supported. simpl.
      destruct (PropHandler.check_supported (_prop_handler self) p);
        [now left|right; discriminate].
    - exfalso. apply unsupported_split in Hnot.
      destruct Hnot as [before [p [o [after [-> [Hb Hp]]]]]].
      unfold parse_sort_by, set_sort_by in H.
      rewrite (parse_sort_by_loop_stop _ _ _ _ before p o after Hb Hp) in H.
      discriminate H. }
  split; [exact Hiff|]. intros H. apply Hiff in H. now rewrite Hok.
Qed.

(** X13: [parse_sort_by] stops at the first property that the property
    handler does not support: it raises [QueryPropertyMappingError], and
    the parser is left with the specs that came before that property in
    place of its earlier sort configuration. *)
Theorem parse_sort_by_stops_at_unsupported self before p o after :
  Forall (supported (_prop_handler self)) before ->
  PropHandler.check_supported (_prop_handler self) p = false ->
  parse_sort_by self (before ++ (p, o) :: after)
  = (mk (_prop_handler self) (dict_update enum_eqb [] before)
       (_group_by self) (_group_mappings self),
     Raise (QueryPropertyMappingError
       "Error: failed to get property mapping, property is not supported by prop_handler")).
Proof.
  intros Hb Hp. unfold parse_sort_by, set_sort_by.
  now apply parse_sort_by_loop_stop.
Qed.

(** The group predicates after a call with ranges under new names. *)
Lemma parse_group_by_mappings self g (ranges : dict string (list Z))
    include_missing self' :
  parse_group_by self g (Some ranges) include_missing = (self', Ok tt) ->
  ranges <> [] ->
  NoDup (dict_keys (_group_mappings self) ++ dict_keys ranges
         ++ if include_missing then [ungrouped] else []) ->
  _group_by self' = Some g /\
  _sort_by self' = _sort_by self /\
  _group_mappings self'
  = _group_mappings self
    ++ map (fun nl => (fst nl, in_range self g (snd nl))) ranges
    ++ if include_missing
       then [(ungrouped, not_in_any self g (List.concat (map snd ranges)))]
       else [].
Proof.
  intros H Hne Hnd. unfold parse_group_by in H.
  destruct (_check_prop_valid self g); [|discriminate].
  destruct ranges as [|nl ranges]; [contradiction|].
  injection H as H. subst self'. split; [reflexivity|]. split; [reflexivity|].
  set (self1 := set_group_by self (Some g)).
  set (f := fun (m : dict string (Rec -> bool)) (x : string * list Z) =>
              dict_set String.eqb m (fst x) (in_range self1 g (snd x))).
  change (_group_mappings
            (set_group_mappings self1
               (if include_missing
                then dict_set String.eqb
                       (fold_left f (nl :: ranges) (_group_mappings self))
                       ungrouped
                       (not_in_any self1 g (List.concat (map snd (nl :: ranges))))
                else fold_left f (nl :: ranges) (_group_mappings self)))
          = _group_mappings self
            ++ map (fun x => (fst x, in_range self1 g (snd x))) (nl :: ranges)
            ++ if include_missing
               then [(ungrouped,
                      not_in_any self1 g (List.concat (map snd (nl :: ranges))))]
               else []).
  generalize dependent (nl :: ranges). clear nl ranges. intros ranges _ Hnd.
  simpl _group_mappings at 1. unfold f.
  assert (Hfold : fold_left
                    (fun m x => dict_set String.eqb m (fst x)
                                  (in_range self1 g (snd x)))
                    ranges (_group_mappings self)
                  = _group_mappings self
                    ++ map (fun x => (fst x, in_range self1 g (snd x))) ranges).
  { apply (DictFacts.fold_dict_set_fresh String.eqb String.eqb_eq
             fst (fun x => in_range self1 g (snd x))).
    destruct include_missing.
    - rewrite app_assoc in Hnd. apply NoDup_remove_1 in Hnd.
      now rewrite app_nil_r in Hnd.
    - now rewrite app_nil_r in Hnd. }
  rewrite Hfold. destruct include_missing; [|now rewrite app_nil_r].
  rewrite (DictFacts.dict_set_fresh String.eqb String.eqb_eq).
  - now rewrite <- app_assoc.
  - rewrite app_assoc in Hnd. apply NoDup_remove_2 in Hnd.
    rewrite app_nil_r in Hnd. unfold dict_keys in *.
    rewrite map_app, map_map. exact Hnd.
Qed.

Lemma parse_group_by_handler self g group_ranges include_missing self' res :
  parse_group_by self g group_ranges include_missing = (self', res) ->
  _prop_handler self' = _prop_handler self.
Proof.
  unfold parse_group_by. destruct (_check_prop_valid self g).
  - destruct group_ranges as [[|nl ranges]|]; intros H; injection H as <- _;
      reflexivity.
  - intros H. now injection H as <- _.
Qed.

(** X14: [parse_group_by] adds to the group predicates the parser already
    holds and never removes one: after a successful call with ranges under
    new names, the earlier predicates are still there, in their places and
    as they were, followed by one predicate per range and, with
    [include_missing], the predicate of "ungrouped results". *)
Theorem parse_group_by_appends self g (ranges : dict string (list Z))
    include_missing self' :
  parse_group_by self g (Some ranges) include_missing = (self', Ok tt) ->
  ranges <> [] ->
  NoDup (dict_keys (_group_mappings self) ++ dict_keys ranges
         ++ if include_missing then [ungrouped] else []) ->
  _group_by self' = Some g /\
  _sort_by self' = _sort_by self /\
  _group_mappings self'
  = _group_mappings self
    ++ map (fun nl => (fst nl, in_range self g (snd nl))) ranges
    ++ if include_missing
       then [(ungrouped, not_in_any self g (List.concat (map snd ranges)))]
       else [].
Proof. apply parse_group_by_mappings. Qed.

End Configuring.

Section Running.
Context {P : Type} {EnumP : Enum P} {Rec : Type}.
Implicit Types (self : QueryParser.t P Rec) (h : heap Rec) (l : list Rec).
Implicit Types (ph : PropHandler.t Rec P).

Lemma keep_nonempty {A : Type} (m b : list A) :
  m <> [] -> match m with [] => b | _ :: _ => m end = m.
Proof. now destruct m. Qed.

Lemma tied_refl ph specs (a : Rec) : tied ph specs a a = true.
Proof.
  unfold tied. apply forallb_forall. intros kr _. apply Z.eqb_refl.
Qed.

Lemma lex_le_tied ph specs (a b : Rec) :
  lex_le ph specs a b -> lex_le ph specs b a -> tied ph specs a b = true.
Proof.
  induction specs as [|[p d] r IH]; simpl; [reflexivity|].
  unfold dir_lt. intros [Hab|[Eab Rab]] [Hba|[Eba Rba]];
    try (destruct d; lia).
  unfold tied in *. simpl. rewrite IH by assumption.
  rewrite andb_true_r. apply Z.eqb_eq. now symmetry.
Qed.

(** A list has at most one stable ordering: two orderings of the same
    records that agree on every class of tied records are equal. *)
Lemma stable_sorted_unique ph specs l1 l2 :
  Permutation l1 l2 ->
  StronglySorted (lex_le ph specs) l1 ->
  StronglySorted (lex_le ph specs) l2 ->
  (forall a, filter (tied ph specs a) l1 = filter (tied ph specs a) l2) ->
  l1 = l2.
Proof.
  revert l2. induction l1 as [|x l1 IH]; intros l2 Hperm Hs1 Hs2 Hf.
  - apply Permutation_nil in Hperm. now subst.
  - destruct l2 as [|y l2].
    { apply Permutation_sym, Permutation_nil in Hperm. discriminate. }
    assert (Hxy : x = y).
    { assert (Ht : tied ph specs x y = true).
      { inversion Hs1 as [|? ? _ H1]; subst.
        inversion Hs2 as [|? ? _ H2]; subst.
        rewrite Forall_forall in H1, H2.
        assert (Hy : In y (x :: l1))
          by (eapply Permutation_in; [symmetry; exact Hperm|now left]).
        assert (Hx : In x (y :: l2))
          by (eapply Permutation_in; [exact Hperm|now left]).
        destruct Hy as [->|Hy]; [apply tied_refl|].
        destruct Hx as [->|Hx]; [apply tied_refl|].
        apply lex_le_tied; [now apply H1|now apply H2]. }
      specialize (Hf x). simpl in Hf. rewrite tied_refl, Ht in Hf.
      now injection Hf. }
    subst y. f_equal. apply IH.
    + now apply Permutation_cons_inv in Hperm.
    + now inversion Hs1.
    + now inversion Hs2.
    + intros a. specialize (Hf a). simpl in Hf.
      destruct (tied ph specs a x); [now injection Hf|exact Hf].
Qed.

Lemma sort_passes_fixed ph specs l :
  StronglySorted (lex_le ph specs) l -> sort_passes ph specs l = l.
Proof.
  intros Hs. apply (stable_sorted_unique ph specs).
  - symmetry. apply sort_passes_perm.
  - apply sort_passes_sorted.
  - exact Hs.
  - intros a. apply sort_passes_stable.
Qed.

Lemma sort_passes_idem ph specs l :
  sort_passes ph specs (sort_passes ph specs l) = sort_passes ph specs l.
Proof. apply sort_passes_fixed, sort_passes_sorted. Qed.

Lemma sort_passes_nonempty ph specs l :
  l <> [] -> sort_passes ph specs l <> [].
Proof.
  intros Hne E. apply Hne. apply Permutation_nil.
  rewrite <- E. symmetry. apply sort_passes_perm.
Qed.

Lemma build_nonempty self l g :
  l <> [] -> _build_unique_val_groups self l g <> [].
Proof.
  rewrite build_unique_val_groups_eq.
  destruct l as [|x r]; [contradiction|]. discriminate.
Qed.

(** The three results of [run_parser]. *)
Lemma run_parser_self self h r :
  fst (fst (run_parser self h r))
  = match h r, _group_by self, _group_mappings self with
    | _ :: _, Some g, [] =>
        set_group_mappings self
          (_build_unique_val_groups self
             (sort_passes (_prop_handler self) (_sort_by self) (h r)) g)
    | _, _, _ => self
    end.
Proof.
  unfold run_parser. destruct (h r) as [|x l] eqn:Hr; [reflexivity|].
  destruct (_sort_by self) as [|s specs] eqn:Hs.
  - destruct (_group_by self); [|reflexivity].
    destruct (_group_mappings self); [|reflexivity].
    unfold sort_passes. simpl. now rewrite Hr.
  - pose proof (run_sort_heap self h r (s :: specs) r) as Hh.
    rewrite Nat.eqb_refl, Hr in Hh.
    destruct (_run_sort self h r (s :: specs)) as [h1 r1] eqn:E.
    assert (r1 = r) by (unfold _run_sort in E; now inversion E). subst r1.
    simpl in Hh.
    destruct (_group_by self); [|reflexivity].
    destruct (_group_mappings self); [|reflexivity].
    simpl. now rewrite Hh.
Qed.

Lemma run_parser_out self h r :
  snd (run_parser self h r)
  = match h r, _group_by self with
    | _ :: _, Some g =>
        let records := sort_passes (_prop_handler self) (_sort_by self) (h r) in
        OutGroups
          (_run_group_by records
             match _group_mappings self with
             | [] => _build_unique_val_groups self records g
             | _ :: _ => _group_mappings self
             end)
    | _, _ => OutList r
    end.
Proof.
  destruct (h r) as [|x l] eqn:Hr.
  - now rewrite run_parser_empty.
  - destruct (_group_by self) as [g|] eqn:Hg.
    + rewrite <- Hr. apply run_parser_groups; [rewrite Hr; discriminate|exact Hg].
    + now apply run_parser_flat.
Qed.

(** X15: [run_parser] is idempotent: run again on the same list object
    with the parser and the heap that the first run left, it changes
    neither the parser nor any list and returns what the first run
    returned. *)
Theorem run_parser_idempotent self h r :
  let first := run_parser self h r in
  let second := run_parser (fst (fst first)) (snd (fst first)) r in
  fst (fst second) = fst (fst first) /\
  (forall r', snd (fst second) r' = snd (fst first) r') /\
  snd second = snd first.
Proof.
  intros first second.
  set (self1 := fst (fst first)). set (h1 := snd (fst first)).
  assert (Hself : self1 = fst (fst (run_parser self h r))) by reflexivity.
  rewrite run_parser_self in Hself.
  assert (Hh1 : h1 r = sort_passes (_prop_handler self) (_sort_by self) (h r)).
  { unfold h1, first. now rewrite run_parser_heap, Nat.eqb_refl. }
  assert (Hph : _prop_handler self1 = _prop_handler self
                /\ _sort_by self1 = _sort_by self
                /\ _group_by self1 = _group_by self).
  { rewrite Hself. destruct (h r); [now repeat split|].
    destruct (_group_by self) eqn:Eg; [|rewrite ?Eg; now repeat split].
    destruct (_group_mappings self) eqn:Em; simpl; rewrite ?Eg;
      now repeat split. }
  destruct Hph as [Hph [Hsb Hgb]].
  assert (Hfix : sort_passes (_prop_handler self1) (_sort_by self1) (h1 r) = h1 r).
  { rewrite Hph, Hsb, Hh1. apply sort_passes_idem. }
  split; [|split].
  - unfold second. fold self1 h1. rewrite run_parser_self.
    destruct (h1 r) as [|x l] eqn:E1; [reflexivity|].
    destruct (_group_by self1) as [g|] eqn:Eg; [|reflexivity].
    destruct (_group_mappings self1) eqn:Em; [|reflexivity].
    exfalso. assert (Eg' : _group_by self = Some g) by congruence.
    rewrite Hself in Em.
    destruct (h r) as [|y l'] eqn:E0.
    { rewrite sort_passes_nil in Hh1. congruence. }
    rewrite Eg' in Em.
    destruct (_group_mappings self) eqn:Em0; [|simpl in Em; congruence].
    simpl in Em. revert Em. apply build_nonempty.
    apply sort_passes_nonempty. discriminate.
  - intros r'. unfold second. fold self1 h1. rewrite run_parser_heap.
    destruct (Nat.eqb_spec r' r) as [->|]; [exact Hfix|reflexivity].
  - unfold second. fold self1 h1. rewrite run_parser_out.
    unfold first. rewrite run_parser_out.
    rewrite Hgb. cbv zeta. rewrite Hfix, Hh1.
    destruct (h r) as [|y l'] eqn:E0.
    { now rewrite sort_passes_nil. }
    destruct (sort_passes (_prop_handler self) (_sort_by self) (y :: l'))
      as [|z records] eqn:Er.
    { exfalso. revert Er. apply sort_passes_nonempty. discriminate. }
    destruct (_group_by self) as [g|] eqn:Eg; [|reflexivity].
    rewrite Hself. clear Hself.
    destruct (_group_mappings self) as [|m ms] eqn:Em0;
      [|now rewrite Em0].
    simpl _group_mappings.
    pose proof (build_nonempty self (z :: records) g) as Hb.
    destruct (_build_unique_val_groups self (z :: records) g);
      [exfalso; apply Hb; [discriminate|reflexivity]|reflexivity].
Qed.

(** X16: a list that is already in the order of the sort specs is left
    exactly as it is by [run_parser]; nothing else in the heap changes
    either. *)
Theorem run_parser_keeps_sorted_list self h r :
  StronglySorted (lex_le (_prop_handler self) (_sort_by self)) (h r) ->
  forall r', snd (fst (run_parser self h r)) r' = h r'.
Proof.
  intros Hs r'. rewrite run_parser_heap.
  destruct (Nat.eqb_spec r' r) as [->|]; [|reflexivity].
  now apply sort_passes_fixed.
Qed.

(** Grouping by value splits a list. *)
Lemma filter_head (val : Rec -> Z) v x l :
  filter (fun o => val o =? v) (x :: l)
  = if val x =? v then x :: filter (fun o => val o =? v) l
    else filter (fun o => val o =? v) l.
Proof. reflexivity. Qed.

Lemma concat_groups_skip (val : Rec -> Z) x l vs :
  ~ In (val x) vs ->
  List.concat (map (fun v => filter (fun o => val o =? v) (x :: l)) vs)
  = List.concat (map (fun v => filter (fun o => val o =? v) l) vs).
Proof.
  induction vs as [|v vs IH]; intros Hn; [reflexivity|].
  rewrite !map_cons, !concat_cons, filter_head.
  destruct (Z.eqb_spec (val x) v) as [E|_].
  - exfalso. apply Hn. now left.
  - rewrite IH; [reflexivity|]. intros Hin. apply Hn. now right.
Qed.

Lemma concat_groups_cons (val : Rec -> Z) x l vs :
  NoDup vs -> In (val x) vs ->
  Permutation
    (List.concat (map (fun v => filter (fun o => val o =? v) (x :: l)) vs))
    (x :: List.concat (map (fun v => filter (fun o => val o =? v) l) vs)).
Proof.
  induction 1 as [|v vs Hv Hnd IH]; intros Hin; [contradiction|].
  rewrite !map_cons, !concat_cons, filter_head.
  destruct (Z.eqb_spec (val x) v) as [E|N].
  - rewrite concat_groups_skip by (now rewrite E). reflexivity.
  - destruct Hin as [E|Hin]; [congruence|].
    rewrite (IH Hin). symmetry. apply Permutation_middle.
Qed.

Lemma groups_partition (val : Rec -> Z) l vs :
  NoDup vs -> (forall x, In x l -> In (val x) vs) ->
  Permutation
    (List.concat (map (fun v => filter (fun o => val o =? v) l) vs)) l.
Proof.
  intros Hnd. induction l as [|x l IH]; intros Hall.
  - clear. induction vs as [|v vs IHv]; [constructor|exact IHv].
  - rewrite concat_groups_cons; [|exact Hnd|apply Hall; now left].
    constructor. apply IH. intros y Hy. apply Hall. now right.
Qed.

(** X17: the groups derived from the distinct values split the list:
    taken together they hold every record of the list exactly as often as
    the list does, and no group is empty. *)
Theorem derived_groups_partition self h r g :
  h r <> [] -> _group_by self = Some g -> _group_mappings self = [] ->
  exists groups,
    snd (run_parser self h r) = OutGroups groups
    /\ Permutation (List.concat (map snd groups)) (h r)
    /\ Forall (fun nl => snd nl <> []) groups.
Proof.
  intros Hl Hg Hm. eexists. split.
  { apply (run_parser_unique_values self h r g Hl Hg Hm). }
  cbv zeta.
  set (records := snd (fst (run_parser self h r)) r).
  assert (Hrec : Permutation records (h r)).
  { unfold records. rewrite run_parser_heap, Nat.eqb_refl.
    symmetry. apply sort_passes_perm. }
  set (vals := first_seen [] (map (group_val self g) records)).
  assert (Hin : forall x, In x records -> In (group_val self g x) vals).
  { intros x Hx. unfold vals. rewrite first_seen_In. split; [|tauto].
    now apply in_map. }
  split.
  - rewrite map_map. simpl. rewrite <- Hrec.
    apply groups_partition; [apply first_seen_NoDup|exact Hin].
  - apply Forall_forall. intros nl Hnl. apply in_map_iff in Hnl.
    destruct Hnl as [v [<- Hv]]. simpl.
    unfold vals in Hv. rewrite first_seen_In, in_map_iff in Hv.
    destruct Hv as [[x [E Hx]] _]. intros Hempty.
    assert (Hf : In x (filter (fun obj => group_val self g obj =? v) records)).
    { apply filter_In. split; [exact Hx|]. now apply Z.eqb_eq. }
    rewrite Hempty in Hf. contradiction.
Qed.

(** X18: [run_parser] returns the list object it was given exactly when
    the list is empty or no group property is set.  Otherwise it returns
    the groups: one per predicate that the parser holds after the call (at
    least one), in their order and under their names, each group holding
    exactly the records of the sorted list that satisfy its predicate, in
    the order of that list, and therefore itself in the order of the sort
    specs. *)
Theorem groups_keep_sort_order self h r :
  let records := snd (fst (run_parser self h r)) r in
  let held := _group_mappings (fst (fst (run_parser self h r))) in
  (snd (run_parser self h r) = OutList r
   <-> h r = [] \/ _group_by self = None) /\
  (h r <> [] -> _group_by self <> None ->
   exists groups,
     snd (run_parser self h r) = OutGroups groups
     /\ held <> []
     /\ groups = map (fun np => (fst np, filter (snd np) records)) held
     /\ Forall
          (fun nl =>
             StronglySorted (lex_le (_prop_handler self) (_sort_by self)) (snd nl))
          groups).
Proof.
  intros records held. split.
  - rewrite run_parser_out.
    destruct (h r) as [|x l] eqn:Hr; [split; [now left|reflexivity]|].
    destruct (_group_by self) as [g|] eqn:Hg; [|split; [now right|reflexivity]].
    split; [discriminate|]. intros [H|H]; discriminate.
  - intros Hne Hgb.
    destruct (_group_by self) as [g|] eqn:Hg; [clear Hgb|contradiction].
    assert (Hrec : records
                   = sort_passes (_prop_handler self) (_sort_by self) (h r)).
    { unfold records. now rewrite run_parser_heap, Nat.eqb_refl. }
    assert (Hheld : held
                    = match _group_mappings self with
                      | [] => _build_unique_val_groups self records g
                      | _ :: _ => _group_mappings self
                      end).
    { unfold held. rewrite run_parser_self, Hg, Hrec.
      destruct (h r) as [|x l]; [contradiction|].
      destruct (_group_mappings self) eqn:Hm; simpl; rewrite ?Hm; reflexivity. }
    assert (Hnonempty : records <> []).
    { rewrite Hrec. now apply sort_passes_nonempty. }
    exists (_run_group_by records held). split; [|split; [|split]].
    + rewrite (run_parser_groups self h r g Hne Hg), Hheld, Hrec. reflexivity.
    + rewrite Hheld. destruct (_group_mappings self); [|discriminate].
      now apply build_nonempty.
    + reflexivity.
    + apply Forall_forall. intros nl Hnl. unfold _run_group_by in Hnl.
      apply in_map_iff in Hnl. destruct Hnl as [[n pred] [<- _]]. simpl.
      rewrite Hrec. apply sorted_filter, sort_passes_sorted.
Qed.

(** X19: the groups that [run_parser] derives are kept by the parser: a
    later [run_parser] on another list uses the values seen in the first
    list, so a record whose value was not seen then is in no group, and a
    value not seen now has an empty group. *)
Theorem derived_groups_are_kept self h r g h2 r2 :
  h r <> [] -> h2 r2 <> [] ->
  _group_by self = Some g -> _group_mappings self = [] ->
  let self1 := fst (fst (run_parser self h r)) in
  let seen := snd (fst (run_parser self h r)) r in
  let records := snd (fst (run_parser self1 h2 r2)) r2 in
  snd (run_parser self1 h2 r2)
  = OutGroups
      (map (fun v =>
              (group_name g v,
               filter (fun obj => group_val self g obj =? v) records))
         (first_seen [] (map (group_val self g) seen))).
Proof.
  intros Hl Hl2 Hg Hm self1 seen records.
  assert (Hself : self1
                  = set_group_mappings self
                      (_build_unique_val_groups self seen g)).
  { unfold self1, seen. rewrite run_parser_self, run_parser_heap, Nat.eqb_refl.
    destruct (h r); [contradiction|]. now rewrite Hg, Hm. }
  assert (Hne : _build_unique_val_groups self seen g <> []).
  { apply build_nonempty. unfold seen.
    rewrite run_parser_heap, Nat.eqb_refl. now apply sort_passes_nonempty. }
  assert (Hrec : records
                 = sort_passes (_prop_handler self1) (_sort_by self1) (h2 r2)).
  { unfold records. now rewrite run_parser_heap, Nat.eqb_refl. }
  rewrite (run_parser_groups self1 h2 r2 g Hl2) by (rewrite Hself; exact Hg).
  rewrite <- Hrec. rewrite Hself. simpl _group_mappings.
  destruct (_build_unique_val_groups self seen g) as [|m ms] eqn:Eb;
    [contradiction|].
  rewrite <- Eb, build_unique_val_groups_eq.
  unfold _run_group_by. now rewrite map_map.
Qed.

(** X20: with ranges and without [include_missing], on a parser that
    holds no group predicates, [run_parser] on a list that is not empty
    yields one group per range and nothing else: a record whose value is
    in no range is in no group. *)
Theorem group_by_ranges_only self0 g (ranges : dict string (list Z)) self h r :
  _group_mappings self0 = [] ->
  ranges <> [] -> NoDup (dict_keys ranges) ->
  h r <> [] ->
  parse_group_by self0 g (Some ranges) false = (self, Ok tt) ->
  let records := snd (fst (run_parser self h r)) r in
  let val := group_val self g in
  exists groups,
    snd (run_parser self h r) = OutGroups groups
    /\ groups
       = map (fun nl =>
                (fst nl,
                 filter (fun obj => existsb (Z.eqb (val obj)) (snd nl)) records))
           ranges
    /\ forall obj,
         (exists nl, In nl groups /\ In obj (snd nl))
         <-> In obj records
             /\ exists nl, In nl ranges /\ In (val obj) (snd nl).
Proof.
  intros Hm Hne Hnd Hl Hparse records val.
  assert (Hrec : records
                 = sort_passes (_prop_handler self) (_sort_by self) (h r)).
  { unfold records. now rewrite run_parser_heap, Nat.eqb_refl. }
  destruct (parse_group_by_mappings self0 g ranges false self Hparse Hne)
    as [Hg [_ Hmap]].
  { rewrite Hm. simpl. now rewrite app_nil_r. }
  rewrite Hm, app_nil_r in Hmap. change ([] ++ ?x) with x in Hmap.
  eexists. split; [|split; [reflexivity|]].
  - rewrite (run_parser_groups self h r g Hl Hg). rewrite <- Hrec, Hmap.
    rewrite keep_nonempty by (destruct ranges; [contradiction|discriminate]).
    unfold _run_group_by. rewrite map_map. f_equal.
    apply map_ext. intros nl. simpl. f_equal.
    apply filter_ext. intros obj. unfold in_range, val, group_val.
    now rewrite (parse_group_by_handler self0 g (Some ranges) false self (Ok tt)).
  - intros obj. split.
    + intros [nl [Hnl Hobj]]. apply in_map_iff in Hnl.
      destruct Hnl as [nl' [<- Hnl']]. simpl in Hobj.
      apply filter_In in Hobj. destruct Hobj as [Hin Hex].
      split; [exact Hin|]. exists nl'. split; [exact Hnl'|].
      now apply existsb_eqb_In.
    + intros [Hin [nl [Hnl Hv]]].
      exists (fst nl,
              filter (fun o => existsb (Z.eqb (val o)) (snd nl)) records).
      split.
      * apply in_map_iff. now exists nl.
      * simpl. apply filter_In. split; [exact Hin|].
        now apply existsb_eqb_In.
Qed.

Lemma dict_get_set_same {V : Type} (d : dict string V) k v :
  dict_get String.eqb (dict_set String.eqb d k v) k = Some v.
Proof.
  induction d as [|[k' v'] d IH]; simpl.
  - now rewrite String.eqb_refl.
  - destruct (String.eqb k' k) eqn:E; simpl; rewrite E; [reflexivity|exact IH].
Qed.

Lemma dict_get_groups l (m : dict string (Rec -> bool)) k :
  dict_get String.eqb (_run_group_by l m) k
  = option_map (fun pred => filter pred l) (dict_get String.eqb m k).
Proof.
  unfold _run_group_by. induction m as [|[k' p] m IH]; simpl; [reflexivity|].
  destruct (String.eqb k' k); [reflexivity|exact IH].
Qed.

Lemma parse_group_by_raw self g (ranges : dict string (list Z))
    include_missing self' :
  parse_group_by self g (Some ranges) include_missing = (self', Ok tt) ->
  ranges <> [] ->
  let self1 := set_group_by self (Some g) in
  let m :=
    fold_left
      (fun m nl => dict_set String.eqb m (fst nl) (in_range self1 g (snd nl)))
      ranges (_group_mappings self) in
  self'
  = set_group_mappings self1
      (if include_missing
       then dict_set String.eqb m ungrouped
              (not_in_any self1 g (List.concat (map snd ranges)))
       else m).
Proof.
  intros H Hne. unfold parse_group_by in H.
  destruct (_check_prop_valid self g); [|discriminate].
  destruct ranges as [|nl ranges]; [contradiction|].
  injection H as <-. reflexivity.
Qed.

(** X21: on a parser that holds no group predicates and for a list that
    is not empty, a range that is itself named "ungrouped results" loses
    its group when [include_missing] is set: the output has exactly the
    names of the ranges, and under "ungrouped results" it holds the
    records whose value is in no range at all, not the records of that
    range. *)
Theorem ungrouped_name_is_taken self0 g (ranges : dict string (list Z))
    self h r :
  _group_mappings self0 = [] ->
  NoDup (dict_keys ranges) -> In ungrouped (dict_keys ranges) ->
  h r <> [] ->
  parse_group_by self0 g (Some ranges) true = (self, Ok tt) ->
  let records := snd (fst (run_parser self h r)) r in
  let val := group_val self g in
  exists groups,
    snd (run_parser self h r) = OutGroups groups
    /\ dict_keys groups = dict_keys ranges
    /\ dict_get String.eqb groups ungrouped
       = Some (filter
                 (fun obj =>
                    negb (existsb (fun nl => existsb (Z.eqb (val obj)) (snd nl))
                            ranges))
                 records).
Proof.
  intros Hm Hnd Hin Hl Hparse records val.
  assert (Hne : ranges <> []) by (intros ->; contradiction).
  assert (Hrec : records
                 = sort_passes (_prop_handler self) (_sort_by self) (h r)).
  { unfold records. now rewrite run_parser_heap, Nat.eqb_refl. }
  pose proof (parse_group_by_raw self0 g ranges true self Hparse Hne) as Hself.
  cbv zeta in Hself.
  set (self1 := set_group_by self0 (Some g)) in Hself.
  rewrite Hm in Hself.
  rewrite (DictFacts.fold_dict_set_fresh String.eqb String.eqb_eq
             fst (fun nl => in_range self1 g (snd nl))) in Hself
    by exact Hnd.
  change ([] ++ ?x) with x in Hself.
  set (m0 := map (fun x => (fst x, in_range self1 g (snd x))) ranges) in Hself.
  set (pred := not_in_any self1 g (List.concat (map snd ranges))) in Hself.
  assert (Hkeys0 : dict_keys m0 = dict_keys ranges).
  { unfold m0, dict_keys. now rewrite map_map. }
  assert (Hmap : _group_mappings self = dict_set String.eqb m0 ungrouped pred)
    by (rewrite Hself; reflexivity).
  assert (Hkeys : dict_keys (_group_mappings self) = dict_keys ranges).
  { rewrite Hmap, (DictFacts.dict_set_keys_present String.eqb String.eqb_eq);
      [exact Hkeys0|now rewrite Hkeys0]. }
  assert (Hg : _group_by self = Some g) by (rewrite Hself; reflexivity).
  assert (Hnemp : _group_mappings self <> []).
  { intros E. rewrite E in Hkeys. destruct ranges; [contradiction|discriminate]. }
  eexists. split; [|split].
  - rewrite (run_parser_groups self h r g Hl Hg), <- Hrec.
    rewrite keep_nonempty by exact Hnemp. reflexivity.
  - unfold _run_group_by, dict_keys in *. rewrite map_map. exact Hkeys.
  - rewrite dict_get_groups, Hmap, dict_get_set_same. simpl. f_equal.
    apply filter_ext. intros obj. unfold pred, not_in_any, val, group_val.
    f_equal. rewrite existsb_concat, existsb_map_snd.
    now rewrite Hself.
Qed.

End Running.

(** Runs on server records. *)
Import Fixture.

Lemma groups_keep_sort_order_witness :
  let sorted := fst (parse_sort_by parser [(ServerProperties.IMAGE_ID, true)]) in
  let self := fst (parse_group_by sorted ServerProperties.FLAVOR_ID None false) in
  four_servers = [server 2 10; server 1 11; server 2 12; server 3 13] /\
  exists groups,
    snd (run_parser self (heap_of four_servers) 0%nat) = OutGroups groups
    /\ groups
       = [("FLAVOR_ID with value 3", [server 3 13]);
          ("FLAVOR_ID with value 2", [server 2 12; server 2 10]);
          ("FLAVOR_ID with value 1", [server 1 11])]%string.
Proof.
  split; [reflexivity|].
  assert (Hne : heap_of four_servers 0%nat <> []) by discriminate.
  assert (Hg : _group_by
                 (fst (parse_group_by
                         (fst (parse_sort_by parser
                                 [(ServerProperties.IMAGE_ID, true)]))
                         ServerProperties.FLAVOR_ID None false))
               <> None) by discriminate.
  destruct (proj2 (groups_keep_sort_order _ (heap_of four_servers) 0%nat) Hne Hg)
    as [groups [Hout [_ [Hgroups _]]]].
  exists groups. split; [exact Hout|]. rewrite Hgroups. reflexivity.
Defined.

Lemma ungrouped_name_is_taken_witness :
  let ranges := [("ungrouped results", [1; 2]); ("high", [3; 4])]%string in
  let self := fst (parse_group_by parser ServerProperties.FLAVOR_ID
                     (Some ranges) true) in
  exists groups,
    snd (run_parser self (heap_of five_servers) 0%nat) = OutGroups groups
    /\ groups
       = [("ungrouped results", [server 5 0]);
          ("high", [server 3 0; server 4 0])]%string.
Proof.
  destruct (ungrouped_name_is_taken parser ServerProperties.FLAVOR_ID
              [("ungrouped results", [1; 2]); ("high", [3; 4])]%string
              (fst (parse_group_by parser ServerProperties.FLAVOR_ID
                      (Some [("ungrouped results", [1; 2]); ("high", [3; 4])]%string)
                      true))
              (heap_of five_servers) 0%nat)
    as [groups [Hout _]].
  - reflexivity.
  - repeat constructor; simpl; intuition discriminate.
  - now left.
  - discriminate.
  - reflexivity.
  - exists groups. split; [exact Hout|].
    assert (E : OutGroups groups
                = OutGroups
                    [("ungrouped results", [server 5 0]);
                     ("high", [server 3 0; server 4 0])]%string)
      by (rewrite <- Hout; reflexivity).
    now injection E.
Defined.

Lemma parse_sort_by_stops_witness :
  let before := [(ServerProperties.FLAVOR_ID, false)] in
  let after := [(ServerProperties.IMAGE_ID, false)] in
  Forall (supported prop_handler_flavor_image) before /\
  PropHandler.check_supported prop_handler_flavor_image
    ServerProperties.SERVER_NAME = false /\
  parse_sort_by parser_flavor_image
    (before ++ (ServerProperties.SERVER_NAME, true) :: after)
  = (mk prop_handler_flavor_image before None [],
     Raise (QueryPropertyMappingError
       "Error: failed to get property mapping, property is not supported by prop_handler")).
Proof.
  split; [repeat constructor|]. split; [reflexivity|].
  apply (parse_sort_by_stops_at_unsupported parser_flavor_image
           [(ServerProperties.FLAVOR_ID, false)] ServerProperties.SERVER_NAME true
           [(ServerProperties.IMAGE_ID, false)]).
  - repeat constructor.
  - reflexivity.
Defined.

Lemma parse_group_by_appends_witness :
  let first := fst (parse_group_by parser ServerProperties.FLAVOR_ID
                      (Some low_high) false) in
  let second := fst (parse_group_by first ServerProperties.IMAGE_ID
                       (Some [("big", [5])]) true) in
  dict_keys (_group_mappings first) = ["low"; "high"]%string /\
  _group_by second = Some ServerProperties.IMAGE_ID /\
  _sort_by second = _sort_by first /\
  _group_mappings second
  = _group_mappings first
    ++ map (fun nl => (fst nl, in_range first ServerProperties.IMAGE_ID (snd nl)))
         [("big", [5])]
    ++ [(ungrouped,
         not_in_any first ServerProperties.IMAGE_ID
           (List.concat (map snd [("big", [5])])))].
Proof.
  split; [reflexivity|].
  apply (parse_group_by_appends
           (fst (parse_group_by parser ServerProperties.FLAVOR_ID
                   (Some low_high) false))
           ServerProperties.IMAGE_ID [("big", [5])] true).
  - reflexivity.
  - discriminate.
  - repeat constructor; simpl; intuition discriminate.
Defined.

(** The earlier groups still test the flavor, the new ones the image. *)
Example group_by_twice :
  let first := fst (parse_group_by parser ServerProperties.FLAVOR_ID
                      (Some low_high) false) in
  let second := fst (parse_group_by first ServerProperties.IMAGE_ID
                       (Some [("big", [12; 13])]) false) in
  snd (run_parser second (heap_of four_servers) 0%nat)
  = OutGroups
      [("low", [server 2 10; server 1 11; server 2 12]);
       ("high", [server 3 13]);
       ("big", [server 2 12; server 3 13])].
Proof. vm_compute. reflexivity. Qed.

Lemma run_parser_keeps_sorted_witness :
  let self := set_sort_by parser [(ServerProperties.FLAVOR_ID, false)] in
  let h := heap_of [server 1 0; server 2 0; server 3 0] in
  StronglySorted (lex_le (_prop_handler self) (_sort_by self)) (h 0%nat) /\
  snd (fst (run_parser self h 0%nat)) 0%nat = h 0%nat.
Proof.
  assert (Hs : StronglySorted
                 (lex_le prop_handler [(ServerProperties.FLAVOR_ID, false)])
                 [server 1 0; server 2 0; server 3 0]).
  { repeat (constructor; try (simpl; left; vm_compute; reflexivity)). }
  split; [exact Hs|].
  apply (run_parser_keeps_sorted_list
           (set_sort_by parser [(ServerProperties.FLAVOR_ID, false)])
           (heap_of [server 1 0; server 2 0; server 3 0]) 0%nat Hs).
Defined.

Lemma derived_groups_partition_witness :
  let self := set_group_by parser (Some ServerProperties.FLAVOR_ID) in
  let h := heap_of four_servers in
  exists groups,
    snd (run_parser self h 0%nat) = OutGroups groups
    /\ Permutation (List.concat (map snd groups)) (h 0%nat)
    /\ Forall (fun nl => snd nl <> []) groups.
Proof.
  apply (derived_groups_partition
           (set_group_by parser (Some ServerProperties.FLAVOR_ID))
           (heap_of four_servers) 0%nat ServerProperties.FLAVOR_ID).
  - discriminate.
  - reflexivity.
  - reflexivity.
Defined.

Lemma derived_groups_are_kept_witness :
  let self := set_group_by parser (Some ServerProperties.FLAVOR_ID) in
  let self1 := fst (fst (run_parser self (heap_of four_servers) 0%nat)) in
  snd (run_parser self1 (heap_of five_servers) 0%nat)
  = OutGroups
      [("FLAVOR_ID with value 2", [server 2 0]);
       ("FLAVOR_ID with value 1", [server 1 0]);
       ("FLAVOR_ID with value 3", [server 3 0])].
Proof.
  cbv zeta.
  rewrite (derived_groups_are_kept
             (set_group_by parser (Some ServerProperties.FLAVOR_ID))
             (heap_of four_servers) 0%nat ServerProperties.FLAVOR_ID
             (heap_of five_servers) 0%nat).
  - reflexivity.
  - discriminate.
  - discriminate.
  - reflexivity.
  - reflexivity.
Defined.

Lemma group_by_ranges_only_witness :
  let self := fst (parse_group_by parser ServerProperties.FLAVOR_ID
                     (Some low_high) false) in
  let h := heap_of five_servers in
  exists groups,
    snd (run_parser self h 0%nat) = OutGroups groups
    /\ groups
       = [("low", [server 1 0; server 2 0]); ("high", [server 3 0; server 4 0])].
Proof.
  destruct (group_by_ranges_only parser ServerProperties.FLAVOR_ID low_high
              (fst (parse_group_by parser ServerProperties.FLAVOR_ID
                      (Some low_high) false))
              (heap_of five_servers) 0%nat)
    as [groups [Hout [Hgroups _]]].
  - reflexivity.
  - discriminate.
  - repeat constructor; simpl; intuition discriminate.
  - discriminate.
  - reflexivity.
  - exists groups. split; [exact Hout|]. rewrite Hgroups. reflexivity.
Defined.

End ParserMore.
